(** * Gas usage calculator (src/App.tsx): label parsing, catalog and usage formula

    A shallow embedding of the three pieces of logic of [App.tsx]:
    [formatGasType] (label parser), [cylinderData] (the catalog) and
    [calculateUsage] (validation, formula, rounding), together with the
    JavaScript built-ins they call. *)

From Stdlib Require Import List NArith ZArith QArith Qabs Qround Bool Lia Lqa String Ascii.
From Stdlib Require Import Floats.SpecFloat.
Import ListNotations.

Set Implicit Arguments.

(** ** JavaScript strings

    A JavaScript string is a sequence of UTF-16 code units; every operation
    used by the source ([includes], [split], [replace], [match], [trim],
    [parseInt]) works on code units. *)

Module JSString.

Definition code_unit := N.
Definition jsstring := list code_unit.

(** A source-level string literal (the literals of [App.tsx] are ASCII). *)
Definition js (s : string) : jsstring :=
  map N_of_ascii (list_ascii_of_string s).

Definition eqb (a b : jsstring) : bool :=
  if list_eq_dec N.eq_dec a b then true else false.

(** LineTerminator: LF, CR, LS, PS.  The regular-expression atom [.] (no
    [s] flag) matches every code unit but these. *)
Definition is_line_terminator (c : code_unit) : bool :=
  ((c =? 10) || (c =? 13) || (c =? 8232) || (c =? 8233))%N.

(** WhiteSpace and LineTerminator, the set stripped by [trim] and by
    [parseInt], and matched by the regular-expression class [\s]:
    TAB, LF, VT, FF, CR, SP, NBSP, U+1680, U+2000..U+200A, LS, PS,
    U+202F, U+205F, U+3000, U+FEFF. *)
Definition is_white_space (c : code_unit) : bool :=
  ((9 <=? c) && (c <=? 13) || (c =? 32) || (c =? 160) || (c =? 5760)
   || (8192 <=? c) && (c <=? 8202) || (c =? 8232) || (c =? 8233)
   || (c =? 8239) || (c =? 8287) || (c =? 12288) || (c =? 65279))%N.

Definition lparen : code_unit := 40%N.
Definition rparen : code_unit := 41%N.
Definition comma : code_unit := 44%N.

(** [strip_prefix p s] is [Some t] when [s = p ++ t]. *)
Fixpoint strip_prefix (p s : jsstring) : option jsstring :=
  match p, s with
  | [], _ => Some s
  | _ :: _, [] => None
  | a :: p', b :: s' => if N.eqb a b then strip_prefix p' s' else None
  end.

(** [find_sep sep s]: the first occurrence of [sep] in [s], as the text
    before it and the text after it ([indexOf] followed by two [substring]s). *)
Fixpoint find_sep (sep s : jsstring) : option (jsstring * jsstring) :=
  match strip_prefix sep s with
  | Some t => Some ([], t)
  | None =>
      match s with
      | [] => None
      | c :: s' =>
          match find_sep sep s' with
          | Some (b, a) => Some (c :: b, a)
          | None => None
          end
      end
  end.

(** [String.prototype.includes(needle)]. *)
Definition includes (needle s : jsstring) : bool :=
  match find_sep needle s with Some _ => true | None => false end.

(** [String.prototype.split(sep)] for a non-empty string separator and no
    limit: the occurrences of [sep] are searched left to right, each search
    resuming after the previous occurrence.  Every round consumes at least
    one code unit, so [length s] rounds are enough. *)
Fixpoint split_fuel (fuel : nat) (sep s : jsstring) : list jsstring :=
  match fuel with
  | O => [s]
  | S fuel' =>
      match find_sep sep s with
      | None => [s]
      | Some (b, a) => b :: split_fuel fuel' sep a
      end
  end.

Definition split (sep s : jsstring) : list jsstring :=
  split_fuel (List.length s) sep s.

(** [s.replace(/[()]/g, '')]: every parenthesis removed. *)
Definition is_paren (c : code_unit) : bool :=
  (N.eqb c lparen || N.eqb c rparen).

Definition remove_parens (s : jsstring) : jsstring :=
  filter (fun c => negb (is_paren c)) s.

(** [String.prototype.trim]. *)
Fixpoint trimStart (s : jsstring) : jsstring :=
  match s with
  | [] => []
  | c :: s' => if is_white_space c then trimStart s' else s
  end.

Definition trimEnd (s : jsstring) : jsstring := rev (trimStart (rev s)).

Definition trim (s : jsstring) : jsstring := trimEnd (trimStart s).

(** *** The regular expression [/(.*?)\s*\((.*?)\)/]

    A backtracking matcher written after the pattern, one function per
    piece, each taking the input left to match. *)

(** [(.*?)\)] : the lazy second group followed by the closing parenthesis.
    The group takes no code unit if a [)] comes next, otherwise one more
    code unit that is not a line terminator.  Returns the group. *)
Fixpoint match_group2 (t : jsstring) : option jsstring :=
  match t with
  | [] => None
  | c :: t' =>
      if N.eqb c rparen then Some []
      else if is_line_terminator c then None
      else match match_group2 t' with
           | Some g => Some (c :: g)
           | None => None
           end
  end.

(** [\s*\(] followed by the rest of the pattern: the greedy star takes a
    white-space code unit when there is one and tries the rest; when that
    fails it gives the code unit back and an opening parenthesis must come
    next. *)
Fixpoint match_ws_paren (t : jsstring) : option jsstring :=
  match t with
  | [] => None
  | c :: t' =>
      let give_back := if N.eqb c lparen then match_group2 t' else None in
      if is_white_space c then
        match match_ws_paren t' with
        | Some g => Some g
        | None => give_back
        end
      else give_back
  end.

(** [(.*?)] followed by the rest: the lazy first group is tried with no
    code unit, then with one more (not a line terminator), and so on.
    Returns both groups. *)
Fixpoint match_group1 (t : jsstring) : option (jsstring * jsstring) :=
  match match_ws_paren t with
  | Some g2 => Some ([], g2)
  | None =>
      match t with
      | [] => None
      | c :: t' =>
          if is_line_terminator c then None
          else match match_group1 t' with
               | Some (g1, g2) => Some (c :: g1, g2)
               | None => None
               end
      end
  end.

(** [s.match(re)] for the pattern above (no [g] flag): the match is tried
    at index 0, then 1, ...; the result is [null] ([None]) or the two
    capture groups [match[1]], [match[2]]. *)
Fixpoint regexp_match (s : jsstring) : option (jsstring * jsstring) :=
  match match_group1 s with
  | Some r => Some r
  | None =>
      match s with
      | [] => None
      | _ :: s' => regexp_match s'
      end
  end.

End JSString.
Import JSString.

(** ** The label parser *)

(** A call either returns a value or throws a [TypeError]. *)
Inductive completion (A : Type) : Type :=
| Return (a : A)
| ThrowTypeError.
Arguments ThrowTypeError {A}.

Record GasFormat := mkGasFormat {
  fmt_displayName : jsstring;
  fmt_components : list jsstring
}.

(** [const [count, rest] = parts]: [count] is [parts[0]], [rest] is
    [parts[1]], which is [undefined] when [parts] has a single element;
    calling [rest.replace] then throws. *)
Definition formatGasType (gasType : jsstring) : completion GasFormat :=
  if includes (js " in 1") gasType then
    match split (js " in 1 ") gasType with
    | count :: rest :: _ =>
        let components := map trim (split [comma] (remove_parens rest)) in
        Return {| fmt_displayName := count ++ js "-in-1 Gas Mixture";
                  fmt_components := components |}
    | _ => ThrowTypeError
    end
  else
    match regexp_match gasType with
    | Some (m1, m2) =>
        Return {| fmt_displayName := trim m1; fmt_components := [trim m2] |}
    | None =>
        Return {| fmt_displayName := gasType; fmt_components := [gasType] |}
    end.

(** ** JavaScript numbers

    A Number is an IEEE 754 binary64 value: [spec_float] with precision 53
    and maximal exponent 1024, rounding to nearest, ties to even. *)

Module JSNumber.

Definition prec : Z := 53.
Definition emax : Z := 1024.

Definition number := spec_float.

Definition NaN : number := S754_nan.

Definition mul : number -> number -> number := SFmul prec emax.
Definition add : number -> number -> number := SFadd prec emax.

(** [isNaN(x)] for an argument that is already a Number. *)
Definition isNaN (x : number) : bool :=
  match x with S754_nan => true | _ => false end.

(** The Number value of a mathematical integer. *)
Definition of_Z (z : Z) : number := binary_normalize prec emax z 0 false.

(** The Number value of the decimal numeral [n / 10^k], with its sign:
    the quotient of the two integers, rounded once. *)
Definition of_decimal (neg : bool) (n : positive) (k : N) : number :=
  SFdiv prec emax (S754_finite neg n 0)
        (S754_finite false (Z.to_pos (10 ^ Z.of_N k)) 0).

(** The numeric literal [n / 10^k] of the source text. *)
Definition lit (n : positive) (k : N) : number := of_decimal false n k.

(** *** [parseInt(string)] with [radix] undefined *)

Definition digit_value (radix : N) (c : code_unit) : option N :=
  let v :=
    if ((48 <=? c) && (c <=? 57))%N then Some (c - 48)%N
    else if ((97 <=? c) && (c <=? 122))%N then Some (c - 87)%N
    else if ((65 <=? c) && (c <=? 90))%N then Some (c - 55)%N
    else None in
  match v with
  | Some d => if (d <? radix)%N then Some d else None
  | None => None
  end.

(** The longest prefix made of radix-[radix] digits, as digit values. *)
Fixpoint digits_prefix (radix : N) (s : jsstring) : list N :=
  match s with
  | [] => []
  | c :: s' =>
      match digit_value radix c with
      | Some d => d :: digits_prefix radix s'
      | None => []
      end
  end.

Definition mathInt (radix : N) (ds : list N) : N :=
  fold_left (fun acc d => (acc * radix + d)%N) ds 0%N.

(** Leading white space is skipped, then an optional sign, then an optional
    [0x] or [0X] that switches to radix 16; the digits that follow are read
    up to the first code unit that is not a digit; no digit gives [NaN]. *)
Definition parseInt (string : jsstring) : number :=
  let s := trimStart string in
  let '(neg, s1) :=
    match s with
    | c :: r =>
        if (c =? 45)%N then (true, r)
        else if (c =? 43)%N then (false, r)
        else (false, s)
    | [] => (false, s)
    end in
  let '(radix, s2) :=
    match s1 with
    | c0 :: c1 :: r =>
        if ((c0 =? 48) && ((c1 =? 120) || (c1 =? 88)))%N then (16%N, r)
        else (10%N, s1)
    | _ => (10%N, s1)
    end in
  match digits_prefix radix s2 with
  | [] => NaN
  | ds =>
      match mathInt radix ds with
      | N0 => S754_zero neg
      | Npos p => of_Z (if neg then Zneg p else Zpos p)
      end
  end.

(** *** [x.toFixed(2)] and [parseFloat] of its result *)

(** The strings [toFixed(2)] returns, by shape: ["NaN"], ["Infinity"] with
    its sign, a sign and a decimal numeral with two fraction digits (the
    numeral is given by its value in hundredths), or, from [10^21] on, the
    sign and [ToString] of the magnitude. *)
Inductive fixed_string : Type :=
| Fixed_NaN
| Fixed_Infinity (neg : bool)
| Fixed_decimal (neg : bool) (n : Z)
| Fixed_ToString (neg : bool) (magnitude : number).

(** [m * 2^e >= 10^21]. *)
Definition at_least_1e21 (m : positive) (e : Z) : bool :=
  match e with
  | Zneg k => (10 ^ 21 * 2 ^ Zpos k <=? Zpos m)%Z
  | _ => (10 ^ 21 <=? Zpos m * 2 ^ e)%Z
  end.

(** The integer [n] for which [n / 100 - m * 2^e] is as close to zero as
    possible, the larger one when there are two. *)
Definition hundredths (m : positive) (e : Z) : Z :=
  match e with
  | Zneg k => ((200 * Zpos m + 2 ^ Zpos k) / 2 ^ (Zpos k + 1))%Z
  | _ => (100 * Zpos m * 2 ^ e)%Z
  end.

Definition toFixed2 (x : number) : fixed_string :=
  match x with
  | S754_nan => Fixed_NaN
  | S754_infinity s => Fixed_Infinity s
  | S754_zero _ => Fixed_decimal false 0
  | S754_finite s m e =>
      if at_least_1e21 m e then Fixed_ToString s (S754_finite false m e)
      else Fixed_decimal s (hundredths m e)
  end.

(** [parseFloat] reads the whole string back: the numeral gives the nearest
    Number, a minus sign in front of zero gives [-0], and [ToString] of a
    Number reads back as that Number. *)
Definition parseFloat (str : fixed_string) : number :=
  match str with
  | Fixed_NaN => NaN
  | Fixed_Infinity s => S754_infinity s
  | Fixed_decimal s n =>
      match n with
      | Zpos p => of_decimal s p 2
      | _ => S754_zero s
      end
  | Fixed_ToString s x => if s then SFopp x else x
  end.

End JSNumber.
Import JSNumber.

(** ** The catalog *)

Record CylinderData := mkCylinderData {
  gasType : jsstring;
  displayName : jsstring;
  components : list jsstring;
  bumpTimeMin : number;
  calTimeMin : number;
  flowRate : number
}.

(** One element of the array literal:
    [{ gasType: l, ...formatGasType(l), bumpTimeMin: b, calTimeMin: c, flowRate: f }]. *)
Definition cylinder (label : string) (b c f : number) : completion CylinderData :=
  match formatGasType (js label) with
  | Return fmt =>
      Return {| gasType := js label;
                displayName := fmt_displayName fmt;
                components := fmt_components fmt;
                bumpTimeMin := b; calTimeMin := c; flowRate := f |}
  | ThrowTypeError => ThrowTypeError
  end.

(** The elements of an array literal are evaluated in order; the first one
    that throws aborts the evaluation. *)
Fixpoint array_literal (A : Type) (elements : list (completion A)) : completion (list A) :=
  match elements with
  | [] => Return []
  | e :: rest =>
      match e with
      | Return a =>
          match array_literal rest with
          | Return l => Return (a :: l)
          | ThrowTypeError => ThrowTypeError
          end
      | ThrowTypeError => ThrowTypeError
      end
  end.

Definition cylinderData_init : completion (list CylinderData) :=
  array_literal
    [ cylinder "3 in 1 (O2,LEL,CO)" (lit 5 1) (lit 2 0) (lit 5 1);
      cylinder "3 in 1 (O2,LEL,H2S)" (lit 5 1) (lit 2 0) (lit 5 1);
      cylinder "4 in 1 (O2,LEL,CO,H2S)" (lit 4 1) (lit 15 1) (lit 5 1);
      cylinder "4 in 1 (O2,LEL,CO,CO2)" (lit 5 1) (lit 215 2) (lit 5 1);
      cylinder "5 in 1 (O2,LEL,CO,H2S,CO2)" (lit 5 1) (lit 215 2) (lit 5 1);
      cylinder "5 in 1 (O2,LEL,CO,H2S,SO2)" (lit 75 2) (lit 25 1) (lit 5 1);
      cylinder "Ammonia (NH3)" (lit 1 0) (lit 3 0) (lit 5 1);
      cylinder "Carbon Dioxide (CO2)" (lit 5 1) (lit 15 1) (lit 5 1);
      cylinder "Carbon Monoxide (CO)" (lit 4 1) (lit 15 1) (lit 5 1);
      cylinder "Chlorine (Cl2)" (lit 3 0) (lit 6 0) (lit 5 1) ].

(** The module-level constant, once its initialiser has run. *)
Definition cylinderData : list CylinderData :=
  match cylinderData_init with
  | Return l => l
  | ThrowTypeError => []
  end.

(** ** The calculator *)

(** The six [useState] cells of the [App] component. *)
Record AppState := mkAppState {
  selectedGas : jsstring;
  testsPerMonth : jsstring;
  calibrationsPerMonth : jsstring;
  instruments : jsstring;
  result : option number;
  error : jsstring
}.

Definition setError (msg : jsstring) (st : AppState) : AppState :=
  {| selectedGas := selectedGas st;
     testsPerMonth := testsPerMonth st;
     calibrationsPerMonth := calibrationsPerMonth st;
     instruments := instruments st;
     result := result st;
     error := msg |}.

Definition setResult (v : number) (st : AppState) : AppState :=
  {| selectedGas := selectedGas st;
     testsPerMonth := testsPerMonth st;
     calibrationsPerMonth := calibrationsPerMonth st;
     instruments := instruments st;
     result := Some v;
     error := error st |}.

(** [!s] for a string: true on the empty string only. *)
Definition falsy (s : jsstring) : bool :=
  match s with [] => true | _ :: _ => false end.

(** The expression assigned to [totalUsage]; [*] associates to the left. *)
Definition totalUsage (cyl : CylinderData) (tests calibrations instrumentCount : number) : number :=
  mul (add (mul (mul (bumpTimeMin cyl) tests) (flowRate cyl))
           (mul (mul (calTimeMin cyl) calibrations) (flowRate cyl)))
      instrumentCount.

(** The click handler: it reads the cells of the current render and queues
    updates; the result is the state of the next render. *)
Definition calculateUsage (st : AppState) : AppState :=
  let st := setError (js "") st in
  if falsy (selectedGas st) || falsy (testsPerMonth st)
     || falsy (calibrationsPerMonth st) || falsy (instruments st)
  then setError (js "Please fill in all fields") st
  else
    match find (fun c => JSString.eqb (gasType c) (selectedGas st)) cylinderData with
    | None => setError (js "Invalid gas type selected") st
    | Some cyl =>
        let tests := parseInt (testsPerMonth st) in
        let calibrations := parseInt (calibrationsPerMonth st) in
        let instrumentCount := parseInt (instruments st) in
        if isNaN tests || isNaN calibrations || isNaN instrumentCount
        then setError (js "Please enter valid numbers") st
        else
          setResult (parseFloat (toFixed2 (totalUsage cyl tests calibrations instrumentCount))) st
    end.

(** The state of the first render. *)
Definition initial_state : AppState :=
  {| selectedGas := []; testsPerMonth := []; calibrationsPerMonth := [];
     instruments := []; result := None; error := [] |}.

(** The user fills in the four fields. *)
Definition fill (gas tests calibrations instr : string) (st : AppState) : AppState :=
  {| selectedGas := js gas; testsPerMonth := js tests;
     calibrationsPerMonth := js calibrations; instruments := js instr;
     result := result st; error := error st |}.

(** The three messages, under the names the specification gives them. *)
Definition MissingField : jsstring := js "Please fill in all fields".
Definition UnknownGasType : jsstring := js "Invalid gas type selected".
Definition InvalidNumber : jsstring := js "Please enter valid numbers".

(** ** Vocabulary of the statements *)

(** A string that is empty or starts with a code unit that is not white space. *)
Definition starts_clean (s : jsstring) : Prop :=
  match s with
  | [] => True
  | c :: _ => is_white_space c = false
  end.

(** No white space at either end: what [trim] leaves. *)
Definition trimmed (s : jsstring) : Prop :=
  starts_clean s /\ starts_clean (rev s).

Definition all_white (s : jsstring) : Prop :=
  Forall (fun c => is_white_space c = true) s.

Definition paren_free (s : jsstring) : Prop :=
  Forall (fun c => is_paren c = false) s.

(** The specification's rule 1, word for word: split at the first
    occurrence of [" in 1 "] into the left part and the right part. *)
Definition spec_rule1 (label : jsstring) : option GasFormat :=
  match find_sep (js " in 1 ") label with
  | Some (count, rest) =>
      Some {| fmt_displayName := count ++ js "-in-1 Gas Mixture";
              fmt_components := map trim (split [comma] (remove_parens rest)) |}
  | None => None
  end.

(** The table of section 4.1 of the specification:
    raw label, bumpTimeMin, calTimeMin, flowRate. *)
Definition catalog_table : list (jsstring * number * number * number) :=
  [ (js "3 in 1 (O2,LEL,CO)", lit 5 1, lit 2 0, lit 5 1);
    (js "3 in 1 (O2,LEL,H2S)", lit 5 1, lit 2 0, lit 5 1);
    (js "4 in 1 (O2,LEL,CO,H2S)", lit 4 1, lit 15 1, lit 5 1);
    (js "4 in 1 (O2,LEL,CO,CO2)", lit 5 1, lit 215 2, lit 5 1);
    (js "5 in 1 (O2,LEL,CO,H2S,CO2)", lit 5 1, lit 215 2, lit 5 1);
    (js "5 in 1 (O2,LEL,CO,H2S,SO2)", lit 75 2, lit 25 1, lit 5 1);
    (js "Ammonia (NH3)", lit 1 0, lit 3 0, lit 5 1);
    (js "Carbon Dioxide (CO2)", lit 5 1, lit 15 1, lit 5 1);
    (js "Carbon Monoxide (CO)", lit 4 1, lit 15 1, lit 5 1);
    (js "Chlorine (Cl2)", lit 3 0, lit 6 0, lit 5 1) ].

(** The exact value [m * 2^e] of the magnitude of a finite Number. *)
Definition Qvalue (m : positive) (e : Z) : Q :=
  match e with
  | Zneg k => Zpos m # (2 ^ k)%positive
  | _ => inject_Z (Zpos m * 2 ^ e)
  end.

(** Strictly positive Numbers. *)
Definition positive_number (x : number) : Prop :=
  SFltb (S754_zero false) x = true.

(** The empty-field test at the top of [calculateUsage]. *)
Definition some_field_empty (st : AppState) : Prop :=
  selectedGas st = [] \/ testsPerMonth st = []
  \/ calibrationsPerMonth st = [] \/ instruments st = [].

Definition every_field_filled (st : AppState) : Prop :=
  selectedGas st <> [] /\ testsPerMonth st <> []
  /\ calibrationsPerMonth st <> [] /\ instruments st <> [].

(** Pairwise distinct strings, as a test. *)
Fixpoint distinctb (l : list jsstring) : bool :=
  match l with
  | [] => true
  | x :: r => negb (existsb (JSString.eqb x) r) && distinctb r
  end.

(** ** The rest of the component *)

(** The [onChange] handlers of the four inputs: each stores
    [e.target.value] in its cell. *)
Definition setSelectedGas (v : jsstring) (st : AppState) : AppState :=
  {| selectedGas := v;
     testsPerMonth := testsPerMonth st;
     calibrationsPerMonth := calibrationsPerMonth st;
     instruments := instruments st;
     result := result st;
     error := error st |}.

Definition setTestsPerMonth (v : jsstring) (st : AppState) : AppState :=
  {| selectedGas := selectedGas st;
     testsPerMonth := v;
     calibrationsPerMonth := calibrationsPerMonth st;
     instruments := instruments st;
     result := result st;
     error := error st |}.

Definition setCalibrationsPerMonth (v : jsstring) (st : AppState) : AppState :=
  {| selectedGas := selectedGas st;
     testsPerMonth := testsPerMonth st;
     calibrationsPerMonth := v;
     instruments := instruments st;
     result := result st;
     error := error st |}.

Definition setInstruments (v : jsstring) (st : AppState) : AppState :=
  {| selectedGas := selectedGas st;
     testsPerMonth := testsPerMonth st;
     calibrationsPerMonth := calibrationsPerMonth st;
     instruments := v;
     result := result st;
     error := error st |}.

(** [const selectedCylinder = cylinderData.find(c => c.gasType === selectedGas)],
    computed at every render. *)
Definition selectedCylinder (st : AppState) : option CylinderData :=
  find (fun c => JSString.eqb (gasType c) (selectedGas st)) cylinderData.

(** The three conditional blocks of the returned tree:
    [{selectedCylinder && ...}] with the three constants it prints,
    [{error && ...}] with the message (the empty string is falsy), and
    [{result !== null && ...}] with the number. *)
Record View := mkView {
  propertiesPanel : option (number * number * number);
  errorBlock : option jsstring;
  resultBlock : option number
}.

Definition render (st : AppState) : View :=
  {| propertiesPanel :=
       match selectedCylinder st with
       | Some c => Some (bumpTimeMin c, calTimeMin c, flowRate c)
       | None => None
       end;
     errorBlock := if falsy (error st) then None else Some (error st);
     resultBlock := result st |}.

(** ** More vocabulary *)

(** [pieces.join(sep)]. *)
Fixpoint join (sep : jsstring) (pieces : list jsstring) : jsstring :=
  match pieces with
  | [] => []
  | x :: rest =>
      match rest with
      | [] => x
      | _ :: _ => x ++ sep ++ join sep rest
      end
  end.

(** The string holds an opening parenthesis followed, before any line
    terminator, by a closing one. *)
Definition has_group (s : jsstring) : Prop :=
  exists a g b,
    s = a ++ lparen :: g ++ rparen :: b
    /\ Forall (fun c => is_line_terminator c = false) g.

Definition is_decimal_digit (c : code_unit) : bool :=
  ((48 <=? c) && (c <=? 57))%N.

(** [x] or [X]. *)
Definition is_x (c : code_unit) : bool :=
  ((c =? 120) || (c =? 88))%N.

(** A Number whose sign bit is clear, or [NaN]. *)
Definition not_negative (x : number) : Prop :=
  match x with
  | S754_zero s | S754_infinity s | S754_finite s _ _ => s = false
  | S754_nan => True
  end.

(** A zero of either sign. *)
Definition is_zero (x : number) : bool :=
  match x with S754_zero _ => true | _ => false end.

(** What [parseInt] does once leading white space and the sign are read:
    the second half of its body, under a name. *)
Definition parseInt_unsigned (neg : bool) (s1 : jsstring) : number :=
  let '(radix, s2) :=
    match s1 with
    | c0 :: c1 :: r =>
        if ((c0 =? 48) && ((c1 =? 120) || (c1 =? 88)))%N then (16%N, r)
        else (10%N, s1)
    | _ => (10%N, s1)
    end in
  match digits_prefix radix s2 with
  | [] => NaN
  | ds =>
      match mathInt radix ds with
      | N0 => S754_zero neg
      | Npos p => of_Z (if neg then Zneg p else Zpos p)
      end
  end.

(** A Number that is not [NaN] and has the given sign bit. *)
Definition has_sign (s : bool) (x : number) : Prop :=
  match x with
  | S754_zero s' | S754_infinity s' | S754_finite s' _ _ => s' = s
  | S754_nan => False
  end.

(** No code unit, or a first code unit that is not [x] or [X]. *)
Definition no_x_next (rest : jsstring) : Prop :=
  match rest with
  | [] => True
  | c :: _ => is_x c = false
  end.

(** No code unit, or a first code unit that is not a decimal digit. *)
Definition no_digit_next (rest : jsstring) : Prop :=
  match rest with
  | [] => True
  | c :: _ => is_decimal_digit c = false
  end.

(** Optional white space, an optional sign, a decimal digit (not the [0]
    of a [0x] prefix), then anything. *)
Definition numeral_like (s : jsstring) : Prop :=
  exists w sign d rest,
    s = w ++ sign ++ d :: rest
    /\ all_white w
    /\ (sign = [] \/ sign = [43%N] \/ sign = [45%N])
    /\ is_decimal_digit d = true
    /\ (d = 48%N -> no_x_next rest).

(** The first code unit after the leading white space is not a minus sign. *)
Definition no_minus (s : jsstring) : Prop :=
  match trimStart s with
  | c :: _ => c <> 45%N
  | [] => True
  end.

(** ** The usage formula and its rounding, in the specification's words *)





(** * Properties *)

Unset Implicit Arguments.

(** ** Worked examples *)

Example example_label_mix :
  formatGasType (js "4 in 1 (O2,LEL,CO,H2S)")
  = Return {| fmt_displayName := js "4-in-1 Gas Mixture";
              fmt_components := [js "O2"; js "LEL"; js "CO"; js "H2S"] |}.
Proof. reflexivity. Qed.

Example example_label_single :
  formatGasType (js "Carbon Monoxide (CO)")
  = Return {| fmt_displayName := js "Carbon Monoxide";
              fmt_components := [js "CO"] |}.
Proof. reflexivity. Qed.

Example example_label_plain :
  formatGasType (js "Argon")
  = Return {| fmt_displayName := js "Argon"; fmt_components := [js "Argon"] |}.
Proof. reflexivity. Qed.

Example lit_half : lit 5 1 = S754_finite false 4503599627370496 (-53).
Proof. reflexivity. Qed.

Example parseInt_examples :
  parseInt (js "42") = of_Z 42 /\ parseInt (js "  -7") = of_Z (-7)
  /\ parseInt (js "0x1A") = of_Z 26 /\ parseInt (js "abc") = NaN
  /\ parseInt (js "-0") = S754_zero true /\ parseInt (js "") = NaN.
Proof. repeat split. Qed.

(** What the menu shows for the ten records. *)
Example cylinderData_display :
  map (fun c => (displayName c, components c)) cylinderData
  = [ (js "3-in-1 Gas Mixture", [js "O2"; js "LEL"; js "CO"]);
      (js "3-in-1 Gas Mixture", [js "O2"; js "LEL"; js "H2S"]);
      (js "4-in-1 Gas Mixture", [js "O2"; js "LEL"; js "CO"; js "H2S"]);
      (js "4-in-1 Gas Mixture", [js "O2"; js "LEL"; js "CO"; js "CO2"]);
      (js "5-in-1 Gas Mixture", [js "O2"; js "LEL"; js "CO"; js "H2S"; js "CO2"]);
      (js "5-in-1 Gas Mixture", [js "O2"; js "LEL"; js "CO"; js "H2S"; js "SO2"]);
      (js "Ammonia", [js "NH3"]);
      (js "Carbon Dioxide", [js "CO2"]);
      (js "Carbon Monoxide", [js "CO"]);
      (js "Chlorine", [js "Cl2"]) ].
Proof. reflexivity. Qed.

Example scenario_B :
  result (calculateUsage (fill "Chlorine (Cl2)" "0" "1" "1" initial_state))
  = Some (lit 3 0).
Proof. vm_compute. reflexivity. Qed.

Example scenario_D :
  error (calculateUsage (fill "Ammonia (NH3)" "abc" "1" "1" initial_state))
  = InvalidNumber.
Proof. vm_compute. reflexivity. Qed.

Example scenario_E :
  error (calculateUsage (fill "Unknown Gas (XX)" "1" "1" "1" initial_state))
  = UnknownGasType.
Proof. vm_compute. reflexivity. Qed.

(** ** Facts about the string operations *)

Section StringFacts.

Lemma jsstring_eqb_eq (a b : jsstring) : JSString.eqb a b = true <-> a = b.
Proof.
  unfold JSString.eqb. destruct (list_eq_dec N.eq_dec a b); split; congruence.
Qed.

Lemma strip_prefix_app (p t : jsstring) : strip_prefix p (p ++ t) = Some t.
Proof.
  induction p as [|a p IH]; simpl; [reflexivity|].
  now rewrite N.eqb_refl.
Qed.

Lemma strip_prefix_Some (p s t : jsstring) :
  strip_prefix p s = Some t -> s = p ++ t.
Proof.
  revert s; induction p as [|a p IH]; intros [|b s]; simpl; try congruence.
  destruct (N.eqb_spec a b); [|discriminate].
  intros H; apply IH in H; subst; reflexivity.
Qed.

Lemma find_sep_Some (sep s b a : jsstring) :
  find_sep sep s = Some (b, a) -> s = b ++ sep ++ a.
Proof.
  revert b; induction s as [|c s IH]; intros b; simpl.
  - destruct (strip_prefix sep []) eqn:E; [|discriminate].
    intros [= <- <-]. now apply strip_prefix_Some in E.
  - destruct (strip_prefix sep (c :: s)) eqn:E.
    + intros [= <- <-]. now apply strip_prefix_Some in E.
    + destruct (find_sep sep s) as [[b' a']|]; [|discriminate].
      intros [= <- <-]. simpl. f_equal. now apply IH.
Qed.

Lemma find_sep_first (sep s b a : jsstring) :
  find_sep sep s = Some (b, a) ->
  forall p q, s = p ++ sep ++ q -> (List.length b <= List.length p)%nat.
Proof.
  revert b; induction s as [|c s IH]; intros b; simpl.
  - destruct (strip_prefix sep []); [|discriminate].
    intros [= <- <-] p q _. simpl. lia.
  - destruct (strip_prefix sep (c :: s)) eqn:E.
    + intros [= <- <-] p q _. simpl. lia.
    + destruct (find_sep sep s) as [[b' a']|] eqn:F; [|discriminate].
      intros [= <- <-] [|x p] q Hs.
      * simpl in Hs. rewrite Hs, strip_prefix_app in E. discriminate.
      * simpl in Hs. injection Hs as -> ->. simpl.
        specialize (IH b' eq_refl p q eq_refl). lia.
Qed.

Lemma find_sep_complete (sep p q : jsstring) :
  exists b a, find_sep sep (p ++ sep ++ q) = Some (b, a).
Proof.
  induction p as [|c p [b [a IH]]]; simpl.
  - destruct (sep ++ q) eqn:E; simpl; rewrite <- E, strip_prefix_app; eauto.
  - destruct (strip_prefix sep (c :: p ++ sep ++ q)); [eauto|].
    rewrite IH. eauto.
Qed.

Lemma includes_iff (needle s : jsstring) :
  includes needle s = true <-> exists p q, s = p ++ needle ++ q.
Proof.
  unfold includes. split.
  - destruct (find_sep needle s) as [[b a]|] eqn:E; [|discriminate].
    intros _. exists b, a. now apply find_sep_Some.
  - intros (p & q & ->). destruct (find_sep_complete needle p q) as (b & a & ->).
    reflexivity.
Qed.

Lemma includes_prefix (n1 n2 s : jsstring) :
  includes (n1 ++ n2) s = true -> includes n1 s = true.
Proof.
  rewrite !includes_iff. intros (p & q & ->).
  exists p, (n2 ++ q). now rewrite <- app_assoc.
Qed.

Lemma find_sep_shorter (sep s b a : jsstring) :
  sep <> [] -> find_sep sep s = Some (b, a) -> (List.length a < List.length s)%nat.
Proof.
  intros Hsep H. apply find_sep_Some in H. subst.
  rewrite !length_app. destruct sep; [congruence|simpl; lia].
Qed.

Lemma split_fuel_stable (sep : jsstring) (Hsep : sep <> []) (n : nat) :
  forall m s, (List.length s <= n)%nat -> (List.length s <= m)%nat ->
  split_fuel n sep s = split_fuel m sep s.
Proof.
  induction n as [|n IH]; intros [|m] s Hn Hm; cbn [split_fuel]; try reflexivity.
  - destruct (find_sep sep s) as [[b a]|] eqn:E; [|reflexivity].
    apply find_sep_shorter in E; [lia|assumption].
  - destruct (find_sep sep s) as [[b a]|] eqn:E; [|reflexivity].
    apply find_sep_shorter in E; [lia|assumption].
  - destruct (find_sep sep s) as [[b a]|] eqn:E; [|reflexivity].
    apply find_sep_shorter in E; [|assumption].
    f_equal. apply IH; lia.
Qed.

(** The loop of [split], one round at a time. *)
Lemma split_cons (sep s b a : jsstring) :
  sep <> [] -> find_sep sep s = Some (b, a) -> split sep s = b :: split sep a.
Proof.
  intros Hsep E. unfold split.
  pose proof (find_sep_shorter _ _ _ _ Hsep E) as Hlt.
  destruct (List.length s) as [|n] eqn:L; [lia|].
  cbn [split_fuel]. rewrite E. f_equal.
  apply split_fuel_stable; [assumption|lia|lia].
Qed.

Lemma split_none (sep s : jsstring) :
  find_sep sep s = None -> split sep s = [s].
Proof.
  intros E. unfold split. destruct (List.length s); cbn [split_fuel]; [reflexivity|].
  now rewrite E.
Qed.

Lemma split_not_nil (sep s : jsstring) : split sep s <> [].
Proof.
  unfold split. destruct (List.length s); cbn [split_fuel]; [discriminate|].
  destruct (find_sep sep s) as [[b a]|]; discriminate.
Qed.

(** Splitting on a single code unit. *)
Lemma find_sep_unit_cons (c x : code_unit) (s : jsstring) :
  find_sep [c] (x :: s) =
  if N.eqb c x then Some ([], s)
  else match find_sep [c] s with
       | Some (b, a) => Some (x :: b, a)
       | None => None
       end.
Proof.
  cbn [find_sep strip_prefix]. destruct (N.eqb c x); reflexivity.
Qed.

Lemma split_unit_cons (c x : code_unit) (s : jsstring) :
  split [c] (x :: s) =
  if N.eqb c x then [] :: split [c] s
  else match split [c] s with
       | hd :: tl => (x :: hd) :: tl
       | [] => []
       end.
Proof.
  assert (Hc : [c] <> []) by discriminate.
  pose proof (find_sep_unit_cons c x s) as F.
  destruct (N.eqb c x).
  - now apply split_cons.
  - destruct (find_sep [c] s) as [[b a]|] eqn:E.
    + rewrite (split_cons _ _ _ _ Hc F), (split_cons _ _ _ _ Hc E). reflexivity.
    + rewrite (split_none _ _ F), (split_none _ _ E). reflexivity.
Qed.

Lemma split_unit_length (c : code_unit) (s : jsstring) :
  List.length (split [c] s) = S (count_occ N.eq_dec s c).
Proof.
  induction s as [|x s IH]; [reflexivity|].
  rewrite split_unit_cons. cbn [count_occ].
  destruct (N.eqb_spec c x) as [->|Hne].
  - destruct (N.eq_dec x x); [|congruence]. simpl. now rewrite IH.
  - destruct (N.eq_dec x c); [congruence|].
    destruct (split [c] s) eqn:E; [now apply split_not_nil in E|].
    simpl in *. exact IH.
Qed.

(** Every piece of a split is made of code units of the string. *)
Lemma split_unit_incl (c : code_unit) (s piece : jsstring) :
  In piece (split [c] s) -> incl piece s.
Proof.
  revert piece; induction s as [|x s IH]; intros piece.
  - cbn. intros [<-|[]]. apply incl_refl.
  - rewrite split_unit_cons. destruct (N.eqb c x).
    + intros [<-|H]; [intros ? []|]. apply incl_tl. now apply IH.
    + destruct (split [c] s) as [|hd tl] eqn:E; [intros []|].
      intros [<-|H].
      * apply incl_cons; [now left|]. apply incl_tl. apply IH. now left.
      * apply incl_tl. apply IH. now right.
Qed.

End StringFacts.

Section TrimFacts.

Lemma trimStart_decomp (s : jsstring) :
  exists a, s = a ++ trimStart s /\ all_white a /\ starts_clean (trimStart s).
Proof.
  induction s as [|c s (a & Hs & Ha & Hc)]; simpl.
  - exists []. repeat split. constructor.
  - destruct (is_white_space c) eqn:W.
    + exists (c :: a). simpl. rewrite <- Hs. repeat split; [|assumption].
      now constructor.
    + exists []. repeat split; [constructor|exact W].
Qed.

Lemma trimStart_app (a t : jsstring) :
  all_white a -> starts_clean t -> trimStart (a ++ t) = t.
Proof.
  intros Ha Ht. induction Ha as [|c a W _ IH]; simpl.
  - destruct t as [|x t]; [reflexivity|]. simpl in *. now rewrite Ht.
  - now rewrite W.
Qed.

Lemma all_white_rev (s : jsstring) : all_white s -> all_white (rev s).
Proof. apply Forall_rev. Qed.

Lemma trimEnd_decomp (s : jsstring) :
  exists b, s = trimEnd s ++ b /\ all_white b /\ starts_clean (rev (trimEnd s)).
Proof.
  unfold trimEnd. destruct (trimStart_decomp (rev s)) as (a & Hs & Ha & Hc).
  exists (rev a). rewrite rev_involutive. repeat split.
  - rewrite <- rev_app_distr, <- Hs. now rewrite rev_involutive.
  - now apply all_white_rev.
  - assumption.
Qed.

Lemma trimEnd_app (t b : jsstring) :
  all_white b -> starts_clean (rev t) -> trimEnd (t ++ b) = t.
Proof.
  intros Hb Ht. unfold trimEnd. rewrite rev_app_distr.
  rewrite trimStart_app; [apply rev_involutive|now apply all_white_rev|assumption].
Qed.

Lemma starts_clean_app (s t : jsstring) :
  s <> [] -> starts_clean s -> starts_clean (s ++ t).
Proof. destruct s; [congruence|intros _ H; exact H]. Qed.

(** [trim] removes a white-space prefix and suffix around a trimmed core. *)
Lemma trim_unique (a core b : jsstring) :
  all_white a -> all_white b -> trimmed core -> trim (a ++ core ++ b) = core.
Proof.
  intros Ha Hb [Hc1 Hc2]. unfold trim.
  destruct core as [|x core].
  - simpl app. rewrite <- (app_nil_r (a ++ b)).
    rewrite trimStart_app; [reflexivity| |exact I].
    apply Forall_app; split; assumption.
  - rewrite trimStart_app; [|assumption|exact Hc1].
    now apply trimEnd_app.
Qed.

Lemma trim_decomp (s : jsstring) :
  exists a b, s = a ++ trim s ++ b /\ all_white a /\ all_white b /\ trimmed (trim s).
Proof.
  destruct (trimStart_decomp s) as (a & Hs & Ha & Hc).
  destruct (trimEnd_decomp (trimStart s)) as (b & Ht & Hb & Hd).
  exists a, b. unfold trim. rewrite <- Ht. repeat split; try assumption.
  destruct (trimEnd (trimStart s)) as [|x r] eqn:E; [exact I|].
  rewrite Ht in Hc. exact Hc.
Qed.

Lemma trim_trimmed (s : jsstring) : trimmed (trim s).
Proof. destruct (trim_decomp s) as (a & b & _ & _ & _ & H). exact H. Qed.

Lemma trim_incl (s : jsstring) : incl (trim s) s.
Proof.
  destruct (trim_decomp s) as (a & b & Hs & _).
  intros x Hx. rewrite Hs. apply in_or_app. right. apply in_or_app. now left.
Qed.

End TrimFacts.

Section RegexpFacts.

Lemma match_group2_spec (sym t : jsstring) :
  Forall (fun c => c <> rparen /\ is_line_terminator c = false) sym ->
  match_group2 (sym ++ rparen :: t) = Some sym.
Proof.
  induction 1 as [|c sym [Hc Hl] _ IH]; simpl; [reflexivity|].
  destruct (N.eqb_spec c rparen); [contradiction|].
  now rewrite Hl, IH.
Qed.

Lemma white_not_lparen (c : code_unit) :
  is_white_space c = true -> N.eqb c lparen = false.
Proof.
  intros W. destruct (N.eqb_spec c lparen) as [->|]; [discriminate W|reflexivity].
Qed.

Lemma match_ws_paren_white (c : code_unit) (t : jsstring) :
  is_white_space c = true -> match_ws_paren (c :: t) = match_ws_paren t.
Proof.
  intros W. simpl. rewrite W, (white_not_lparen _ W).
  destruct (match_ws_paren t); reflexivity.
Qed.

Lemma match_ws_paren_skip (b t : jsstring) :
  all_white b -> match_ws_paren (b ++ lparen :: t) = match_group2 t.
Proof.
  induction 1 as [|c b W _ IH].
  - reflexivity.
  - simpl app. now rewrite match_ws_paren_white.
Qed.

Lemma match_ws_paren_blocked (p t : jsstring) :
  p <> [] -> Forall (fun c => c <> lparen) p -> starts_clean (rev p) ->
  match_ws_paren (p ++ t) = None.
Proof.
  induction p as [|c p IH]; [congruence|]. intros _ Hp Hr.
  inversion Hp as [|? ? Hc Hp']; subst.
  assert (Hn : N.eqb c lparen = false) by now apply N.eqb_neq.
  destruct (is_white_space c) eqn:W.
  - simpl app. rewrite match_ws_paren_white by assumption.
    destruct p as [|d p]; [simpl in Hr; congruence|].
    apply IH; [discriminate|assumption|].
    simpl in Hr |- *. destruct (rev p ++ [d]) eqn:E; [now destruct (rev p)|exact Hr].
  - simpl. now rewrite W, Hn.
Qed.

Lemma starts_clean_rev_tail (c : code_unit) (p : jsstring) :
  starts_clean (rev (c :: p)) -> starts_clean (rev p).
Proof.
  simpl. destruct (rev p); [intros _; exact I|intros H; exact H].
Qed.

Lemma match_group1_eq (t : jsstring) :
  match_group1 t =
  match match_ws_paren t with
  | Some g2 => Some ([], g2)
  | None =>
      match t with
      | [] => None
      | c :: t' =>
          if is_line_terminator c then None
          else match match_group1 t' with
               | Some (g1, g2) => Some (c :: g1, g2)
               | None => None
               end
      end
  end.
Proof. destruct t; reflexivity. Qed.

Lemma match_group1_spec (pre b sym t : jsstring) :
  Forall (fun c => c <> lparen /\ is_line_terminator c = false) pre ->
  starts_clean (rev pre) -> all_white b ->
  Forall (fun c => c <> rparen /\ is_line_terminator c = false) sym ->
  match_group1 (pre ++ b ++ lparen :: sym ++ rparen :: t) = Some (pre, sym).
Proof.
  intros Hpre Hr Hb Hsym. induction pre as [|c pre IH].
  - simpl app. rewrite match_group1_eq.
    now rewrite match_ws_paren_skip, match_group2_spec.
  - inversion Hpre as [|? ? [Hc Hl] Hpre']; subst.
    rewrite match_group1_eq.
    rewrite match_ws_paren_blocked;
      [|discriminate|eapply Forall_impl; [|exact Hpre]; now intros ? []|assumption].
    simpl app. cbv beta iota. rewrite Hl, IH; [reflexivity|assumption|].
    now apply starts_clean_rev_tail with c.
Qed.

Lemma regexp_match_at_start (s : jsstring) (r : jsstring * jsstring) :
  match_group1 s = Some r -> regexp_match s = Some r.
Proof. intros H. destruct s; cbn [regexp_match]; now rewrite H. Qed.

End RegexpFacts.

Section LabelParser.

Lemma count_occ_remove_parens (s : jsstring) :
  count_occ N.eq_dec (remove_parens s) comma = count_occ N.eq_dec s comma.
Proof.
  induction s as [|c s IH]; [reflexivity|].
  unfold remove_parens in *. cbn [filter count_occ].
  destruct (is_paren c) eqn:P; cbn [negb].
  - destruct (N.eq_dec c comma) as [->|]; [discriminate P|exact IH].
  - cbn [count_occ]. destruct (N.eq_dec c comma); now rewrite IH.
Qed.

Lemma remove_parens_paren_free (s : jsstring) : paren_free (remove_parens s).
Proof.
  apply Forall_forall. intros c Hc. apply filter_In in Hc.
  destruct Hc as [_ Hc]. now destruct (is_paren c).
Qed.

Lemma components_ok (rest : jsstring) :
  let components := map trim (split [comma] (remove_parens rest)) in
  List.length components = S (count_occ N.eq_dec rest comma)
  /\ Forall (fun c => trimmed c /\ paren_free c) components.
Proof.
  cbv zeta. split.
  - now rewrite length_map, split_unit_length, count_occ_remove_parens.
  - apply Forall_forall. intros c Hc. apply in_map_iff in Hc.
    destruct Hc as (piece & <- & Hp). split; [apply trim_trimmed|].
    apply Forall_forall. intros x Hx.
    apply trim_incl, (split_unit_incl _ _ _ Hp) in Hx.
    pose proof (remove_parens_paren_free rest) as F.
    unfold paren_free in F. rewrite Forall_forall in F. now apply F.
Qed.

(** When the label parser throws. *)
Lemma formatGasType_throws_iff (gasType : jsstring) :
  formatGasType gasType = ThrowTypeError
  <-> includes (js " in 1") gasType = true /\ includes (js " in 1 ") gasType = false.
Proof.
  assert (Hsep : js " in 1 " <> []) by discriminate.
  unfold formatGasType.
  destruct (includes (js " in 1") gasType) eqn:I1.
  - unfold includes.
    destruct (find_sep (js " in 1 ") gasType) as [[b a]|] eqn:F.
    + rewrite (split_cons _ _ _ _ Hsep F).
      destruct (split (js " in 1 ") a) eqn:S; [now apply split_not_nil in S|].
      split; [discriminate|intros [_ ?]; discriminate].
    + rewrite (split_none _ _ F). tauto.
  - destruct (regexp_match gasType) as [[m1 m2]|];
      (split; [discriminate|intros [? _]; discriminate]).
Qed.

End LabelParser.

(** C1: [formatGasType] is not total: on a label that contains [" in 1"]
    but not [" in 1 "], the array returned by [split] has one element,
    [rest] is [undefined] and [rest.replace] throws a [TypeError]. *)
Theorem formatGasType_throws_on_2_in_1 :
  includes (js " in 1") (js "2 in 1") = true
  /\ split (js " in 1 ") (js "2 in 1") = [js "2 in 1"]
  /\ formatGasType (js "2 in 1") = ThrowTypeError.
Proof. repeat split. Qed.

(** C5, as stated, fails.  With two occurrences of [" in 1 "] the
    components come from the text between them, not from the whole right
    part; and a label with [" in 1"] but no [" in 1 "] gives no result. *)
Lemma mixture_rule_counterexample :
  (includes (js " in 1") (js "1 in 1 a,b in 1 c,d") = true
   /\ spec_rule1 (js "1 in 1 a,b in 1 c,d")
      = Some {| fmt_displayName := js "1-in-1 Gas Mixture";
                fmt_components := [js "a"; js "b in 1 c"; js "d"] |}
   /\ formatGasType (js "1 in 1 a,b in 1 c,d")
      = Return {| fmt_displayName := js "1-in-1 Gas Mixture";
                  fmt_components := [js "a"; js "b"] |})
  /\ (includes (js " in 1") (js "2 in 1") = true
      /\ forall r, formatGasType (js "2 in 1") <> Return r).
Proof.
  split; [repeat split|].
  split; [reflexivity|intros r; discriminate].
Qed.

(** C5, amended: for a label that contains [" in 1 "], [count] is the text
    before the first occurrence, [rest] the text from there to the next
    occurrence (to the end when there is none); the display name is
    [count ++ "-in-1 Gas Mixture"], the components are [rest] without
    parentheses, split on commas, each piece trimmed: one more than the
    commas of [rest], each trimmed and free of parentheses. *)
Theorem formatGasType_mixture (label : jsstring) :
  includes (js " in 1 ") label = true ->
  exists count tail rest,
    label = count ++ js " in 1 " ++ tail
    /\ (forall p q, label = p ++ js " in 1 " ++ q ->
                    (List.length count <= List.length p)%nat)
    /\ ((includes (js " in 1 ") tail = false /\ rest = tail)
        \/ (exists q, tail = rest ++ js " in 1 " ++ q
                      /\ forall p q', tail = p ++ js " in 1 " ++ q' ->
                                      (List.length rest <= List.length p)%nat))
    /\ formatGasType label
       = Return {| fmt_displayName := count ++ js "-in-1 Gas Mixture";
                   fmt_components := map trim (split [comma] (remove_parens rest)) |}
    /\ List.length (map trim (split [comma] (remove_parens rest)))
       = S (count_occ N.eq_dec rest comma)
    /\ Forall (fun c => trimmed c /\ paren_free c)
              (map trim (split [comma] (remove_parens rest))).
Proof.
  intros Hinc.
  assert (Hsep : js " in 1 " <> []) by discriminate.
  assert (H1 : includes (js " in 1") label = true)
    by (apply includes_prefix with (n2 := js " "); exact Hinc).
  unfold includes in Hinc.
  destruct (find_sep (js " in 1 ") label) as [[count tail]|] eqn:F; [|discriminate].
  assert (Hrest : exists rest more,
             split (js " in 1 ") tail = rest :: more
             /\ ((includes (js " in 1 ") tail = false /\ rest = tail)
                 \/ (exists q, tail = rest ++ js " in 1 " ++ q
                      /\ forall p q', tail = p ++ js " in 1 " ++ q' ->
                                      (List.length rest <= List.length p)%nat))).
  { unfold includes.
    destruct (find_sep (js " in 1 ") tail) as [[r q]|] eqn:G.
    - exists r, (split (js " in 1 ") q). split; [now apply split_cons|].
      right. exists q. split; [now apply find_sep_Some|].
      now apply find_sep_first with (a := q).
    - exists tail, []. split; [now apply split_none|]. now left. }
  destruct Hrest as (rest & more & Hsplit & Hshape).
  exists count, tail, rest.
  split; [now apply find_sep_Some|].
  split; [now apply find_sep_first with (a := tail)|].
  split; [exact Hshape|].
  split.
  - unfold formatGasType. rewrite H1.
    rewrite (split_cons _ _ _ _ Hsep F), Hsplit. reflexivity.
  - apply components_ok.
Qed.

Lemma mixture_4_in_1_instance :
  exists count tail rest,
    js "4 in 1 (O2,LEL,CO,H2S)" = count ++ js " in 1 " ++ tail
    /\ (forall p q, js "4 in 1 (O2,LEL,CO,H2S)" = p ++ js " in 1 " ++ q ->
                    (List.length count <= List.length p)%nat)
    /\ ((includes (js " in 1 ") tail = false /\ rest = tail)
        \/ (exists q, tail = rest ++ js " in 1 " ++ q
                      /\ forall p q', tail = p ++ js " in 1 " ++ q' ->
                                      (List.length rest <= List.length p)%nat))
    /\ formatGasType (js "4 in 1 (O2,LEL,CO,H2S)")
       = Return {| fmt_displayName := count ++ js "-in-1 Gas Mixture";
                   fmt_components := map trim (split [comma] (remove_parens rest)) |}
    /\ List.length (map trim (split [comma] (remove_parens rest)))
       = S (count_occ N.eq_dec rest comma)
    /\ Forall (fun c => trimmed c /\ paren_free c)
              (map trim (split [comma] (remove_parens rest))).
Proof.
  apply (formatGasType_mixture (js "4 in 1 (O2,LEL,CO,H2S)")). reflexivity.
Defined.

(** C6, as stated, fails: [.] does not match a line terminator, and both
    groups are lazy.  With a line terminator in the name the match starts
    after it and the display name is the last line of the name only; with
    one in the symbol nothing matches and the label is returned as it is;
    with an opening parenthesis in the name, or a closing one in the symbol,
    the groups stop at the first parenthesis. *)
Lemma single_rule_counterexample :
  (let name := js "A" ++ [10%N] ++ js "B" in
   let label := name ++ js " (" ++ js "C" ++ js ")" in
   includes (js " in 1") label = false
   /\ formatGasType label
      = Return {| fmt_displayName := js "B"; fmt_components := [js "C"] |}
   /\ js "B" <> trim name)
  /\ (let symbol := js "B" ++ [10%N] ++ js "C" in
      let label := js "A" ++ js " (" ++ symbol ++ js ")" in
      includes (js " in 1") label = false
      /\ formatGasType label
         = Return {| fmt_displayName := label; fmt_components := [label] |}
      /\ label <> trim (js "A"))
  /\ (includes (js " in 1") (js "A(B" ++ js " (" ++ js "C" ++ js ")") = false
      /\ formatGasType (js "A(B" ++ js " (" ++ js "C" ++ js ")")
         = Return {| fmt_displayName := js "A"; fmt_components := [js "B (C"] |}
      /\ js "A" <> trim (js "A(B"))
  /\ (includes (js " in 1") (js "A" ++ js " (" ++ js "B)C" ++ js ")") = false
      /\ formatGasType (js "A" ++ js " (" ++ js "B)C" ++ js ")")
         = Return {| fmt_displayName := js "A"; fmt_components := [js "B"] |}
      /\ [js "B"] <> [trim (js "B)C")]).
Proof. cbv zeta. repeat split; discriminate. Qed.

(** C6, amended: for a label [name ++ " (" ++ symbol ++ ")"] without
    [" in 1"], where [name] holds no opening parenthesis and no line
    terminator and [symbol] holds no closing parenthesis and no line
    terminator, the display name is [name] trimmed and the components are
    the single [symbol] trimmed. *)
Theorem formatGasType_single (name symbol : jsstring) :
  Forall (fun c => c <> lparen /\ is_line_terminator c = false) name ->
  Forall (fun c => c <> rparen /\ is_line_terminator c = false) symbol ->
  includes (js " in 1") (name ++ js " (" ++ symbol ++ js ")") = false ->
  formatGasType (name ++ js " (" ++ symbol ++ js ")")
  = Return {| fmt_displayName := trim name; fmt_components := [trim symbol] |}.
Proof.
  intros Hname Hsym Hinc. unfold formatGasType. rewrite Hinc.
  destruct (trim_decomp name) as (a & b & Hn & Ha & Hb & Ht).
  set (core := trim name) in *.
  assert (Hw : all_white (b ++ js " ")).
  { apply Forall_app; split; [assumption|]. repeat constructor. }
  assert (Hm : exists pre, regexp_match (name ++ js " (" ++ symbol ++ js ")")
                           = Some (pre, symbol) /\ trim pre = core).
  { destruct core as [|x core'] eqn:Ec.
    - exists []. split; [|reflexivity].
      apply regexp_match_at_start.
      replace (name ++ js " (" ++ symbol ++ js ")")
        with ([] ++ (a ++ b ++ js " ") ++ lparen :: symbol ++ rparen :: []).
      + apply match_group1_spec; try assumption; [constructor|exact I|].
        apply Forall_app; split; assumption.
      + rewrite Hn. simpl. rewrite <- !app_assoc. reflexivity.
    - exists (a ++ core). split.
      + apply regexp_match_at_start.
        replace (name ++ js " (" ++ symbol ++ js ")")
          with ((a ++ core) ++ (b ++ js " ") ++ lparen :: symbol ++ rparen :: []).
        * apply match_group1_spec; try assumption.
          -- rewrite Hn in Hname. rewrite Ec.
             rewrite app_assoc in Hname. now apply Forall_app in Hname.
          -- rewrite rev_app_distr. apply starts_clean_app; [|rewrite Ec; apply Ht].
             rewrite Ec. simpl. now destruct (rev core').
        * rewrite Hn, Ec. rewrite <- !app_assoc. reflexivity.
      + rewrite <- (app_nil_r core) at 1. rewrite Ec.
        apply trim_unique; [assumption|constructor|assumption]. }
  destruct Hm as (pre & -> & ->). reflexivity.
Qed.

Lemma single_ammonia_instance :
  formatGasType (js "Ammonia" ++ js " (" ++ js "NH3" ++ js ")")
  = Return {| fmt_displayName := trim (js "Ammonia");
              fmt_components := [trim (js "NH3")] |}.
Proof.
  apply (formatGasType_single (js "Ammonia") (js "NH3")).
  - repeat constructor; discriminate.
  - repeat constructor; discriminate.
  - reflexivity.
Defined.

Section Rounding.

Lemma hundredths_nearest (m : positive) (e : Z) :
  (inject_Z (hundredths m e) - (1 # 2) <= 100 * Qvalue m e)%Q
  /\ (100 * Qvalue m e < inject_Z (hundredths m e) + (1 # 2))%Q.
Proof.
  destruct e as [|p|k]; unfold hundredths, Qvalue.
  - unfold Qle, Qlt, Qminus, Qplus, Qopp, Qmult, inject_Z; cbn [Qnum Qden].
    split; lia.
  - unfold Qle, Qlt, Qminus, Qplus, Qopp, Qmult, inject_Z; cbn [Qnum Qden].
    split; lia.
  - set (D := (2 ^ Zpos k)%Z).
    assert (HD : (0 < D)%Z) by (apply Z.pow_pos_nonneg; lia).
    assert (E2 : (2 ^ (Zpos k + 1) = 2 * D)%Z).
    { unfold D. rewrite Z.pow_add_r by lia. lia. }
    rewrite E2.
    pose proof (Z.div_mod (200 * Zpos m + D) (2 * D) ltac:(lia)) as Hdm.
    pose proof (Z.mod_pos_bound (200 * Zpos m + D) (2 * D) ltac:(lia)) as Hb.
    set (n := ((200 * Zpos m + D) / (2 * D))%Z) in *.
    unfold Qle, Qlt, Qminus, Qplus, Qopp, Qmult, inject_Z; cbn [Qnum Qden].
    rewrite !Pos2Z.inj_mul, Pos2Z.inj_pow. fold D.
    split; nia.
Qed.

(** [hundredths] in the words of the language definition: no integer is
    closer to [100 * m * 2^e], and among the closest it is the largest. *)
Lemma hundredths_closest (m : positive) (e : Z) (n' : Z) :
  (Qabs (inject_Z (hundredths m e) - 100 * Qvalue m e)
   <= Qabs (inject_Z n' - 100 * Qvalue m e))%Q
  /\ (Qabs (inject_Z n' - 100 * Qvalue m e)
      == Qabs (inject_Z (hundredths m e) - 100 * Qvalue m e) ->
      (n' <= hundredths m e)%Z)%Q.
Proof.
  destruct (hundredths_nearest m e) as [Hlo Hhi].
  set (n := hundredths m e) in *. set (x := (100 * Qvalue m e)%Q) in *.
  assert (Hd : (Qabs (inject_Z n - x) <= 1 # 2)%Q).
  { apply Qabs_Qle_condition. split; lra. }
  destruct (Z_lt_le_dec n n') as [Hgt|Hle].
  - assert (Hq : (inject_Z n + 1 <= inject_Z n')%Q).
    { unfold Qle, Qplus, inject_Z; cbn [Qnum Qden]; lia. }
    assert (Hfar : ((1 # 2) < Qabs (inject_Z n' - x))%Q).
    { eapply Qlt_le_trans; [|apply Qle_Qabs]. lra. }
    split; [lra|]. intros Heq. rewrite Heq in Hfar. lra.
  - split; [|intros _; exact Hle].
    destruct (Z.eq_dec n' n) as [->|Hne]; [apply Qle_refl|].
    assert (Hq : (inject_Z n' + 1 <= inject_Z n)%Q).
    { unfold Qle, Qplus, inject_Z; cbn [Qnum Qden]; lia. }
    eapply Qle_trans; [exact Hd|].
    rewrite <- Qabs_opp. eapply Qle_trans; [|apply Qle_Qabs]. lra.
Qed.

End Rounding.

Section Calculator.

Lemma falsy_true (s : jsstring) : falsy s = true <-> s = [].
Proof. destruct s; simpl; split; congruence. Qed.

Lemma falsy_false (s : jsstring) : falsy s = false <-> s <> [].
Proof. destruct s; simpl; split; congruence. Qed.

Lemma empty_test_true (st : AppState) :
  falsy (selectedGas st) || falsy (testsPerMonth st)
  || falsy (calibrationsPerMonth st) || falsy (instruments st) = true
  <-> some_field_empty st.
Proof.
  unfold some_field_empty. rewrite !orb_true_iff, !falsy_true. tauto.
Qed.

Lemma empty_test_false (st : AppState) :
  falsy (selectedGas st) || falsy (testsPerMonth st)
  || falsy (calibrationsPerMonth st) || falsy (instruments st) = false
  <-> every_field_filled st.
Proof.
  unfold every_field_filled. rewrite !orb_false_iff, !falsy_false. tauto.
Qed.

(** What [cylinderData.find] answers. *)
Lemma find_gas_Some (gas : jsstring) (cyl : CylinderData) :
  find (fun c => JSString.eqb (gasType c) gas) cylinderData = Some cyl ->
  In cyl cylinderData /\ gasType cyl = gas.
Proof.
  intros H. apply find_some in H. now rewrite jsstring_eqb_eq in H.
Qed.

Lemma find_gas_None (gas : jsstring) :
  find (fun c => JSString.eqb (gasType c) gas) cylinderData = None ->
  forall c, In c cylinderData -> gasType c <> gas.
Proof.
  intros H c Hc E. apply (find_none _ _ H) in Hc.
  apply jsstring_eqb_eq in E. simpl in Hc. congruence.
Qed.

(** The four ways out of [calculateUsage], by the tests it makes. *)
Lemma calculateUsage_cases (st : AppState) :
  let lookup := find (fun c => JSString.eqb (gasType c) (selectedGas st)) cylinderData in
  let tests := parseInt (testsPerMonth st) in
  let calibrations := parseInt (calibrationsPerMonth st) in
  let instrumentCount := parseInt (instruments st) in
  (some_field_empty st
   /\ calculateUsage st = setError MissingField (setError (js "") st))
  \/ (every_field_filled st /\ lookup = None
      /\ calculateUsage st = setError UnknownGasType (setError (js "") st))
  \/ (exists cyl, every_field_filled st /\ lookup = Some cyl
      /\ isNaN tests || isNaN calibrations || isNaN instrumentCount = true
      /\ calculateUsage st = setError InvalidNumber (setError (js "") st))
  \/ (exists cyl, every_field_filled st /\ lookup = Some cyl
      /\ isNaN tests || isNaN calibrations || isNaN instrumentCount = false
      /\ calculateUsage st
         = setResult (parseFloat (toFixed2 (totalUsage cyl tests calibrations instrumentCount)))
                     (setError (js "") st)).
Proof.
  cbv zeta. unfold calculateUsage. cbn [setError selectedGas testsPerMonth calibrationsPerMonth instruments].
  destruct (falsy (selectedGas st) || falsy (testsPerMonth st)
            || falsy (calibrationsPerMonth st) || falsy (instruments st)) eqn:E.
  - left. split; [now apply empty_test_true|reflexivity].
  - right. apply empty_test_false in E.
    destruct (find _ cylinderData) as [cyl|] eqn:F.
    + right.
      destruct (isNaN (parseInt (testsPerMonth st))
                || isNaN (parseInt (calibrationsPerMonth st))
                || isNaN (parseInt (instruments st))) eqn:N.
      * left. exists cyl. repeat split; try assumption; apply E.
      * right. exists cyl. repeat split; try assumption; apply E.
    + left. repeat split; try assumption; apply E.
Qed.

End Calculator.






(** The binary product [2.15 * 1 * 0.5] lies just below 1.075, so this
    usage is 1.07. *)
Example usage_rounds_the_binary_value :
  result (calculateUsage (fill "4 in 1 (O2,LEL,CO,CO2)" "0" "1" "1" initial_state))
  = Some (lit 107 2).
Proof. vm_compute. reflexivity. Qed.

(** C3: the initialiser of [cylinderData] returns, with 10 records whose
    labels and constants are those of the table, in its order, each display
    name and component list being [formatGasType] of the record's label. *)
Theorem cylinderData_matches_table :
  cylinderData_init = Return cylinderData
  /\ List.length cylinderData = 10%nat
  /\ map (fun c => (gasType c, bumpTimeMin c, calTimeMin c, flowRate c)) cylinderData
     = catalog_table
  /\ Forall (fun c => formatGasType (gasType c)
                      = Return {| fmt_displayName := displayName c;
                                  fmt_components := components c |})
            cylinderData.
Proof.
  split; [reflexivity|]. split; [reflexivity|]. split; [reflexivity|].
  repeat constructor.
Qed.

(** C4: the checks come in a fixed order and the first that fails decides:
    an empty field gives MissingField; else a selection that is no record's
    [gasType] gives UnknownGasType; else an input that [parseInt] turns into
    [NaN] gives InvalidNumber; else the error is cleared and a result is set. *)
Theorem calculateUsage_validation_order (st : AppState) :
  let st' := calculateUsage st in
  (some_field_empty st /\ error st' = MissingField)
  \/ (every_field_filled st
      /\ (forall c, In c cylinderData -> gasType c <> selectedGas st)
      /\ error st' = UnknownGasType)
  \/ (every_field_filled st
      /\ (exists c, In c cylinderData /\ gasType c = selectedGas st)
      /\ (isNaN (parseInt (testsPerMonth st)) = true
          \/ isNaN (parseInt (calibrationsPerMonth st)) = true
          \/ isNaN (parseInt (instruments st)) = true)
      /\ error st' = InvalidNumber)
  \/ (every_field_filled st
      /\ (exists c, In c cylinderData /\ gasType c = selectedGas st)
      /\ isNaN (parseInt (testsPerMonth st)) = false
      /\ isNaN (parseInt (calibrationsPerMonth st)) = false
      /\ isNaN (parseInt (instruments st)) = false
      /\ error st' = js ""
      /\ exists v, result st' = Some v).
Proof.
  cbv zeta.
  destruct (calculateUsage_cases st)
    as [[He ->]|[(Hf & Hn & ->)|[(c & Hf & Hs & Hnan & ->)|(c & Hf & Hs & Hnan & ->)]]].
  - left. split; [assumption|reflexivity].
  - right; left. split; [assumption|]. split; [|reflexivity].
    now apply find_gas_None.
  - right; right; left. split; [assumption|].
    split; [exists c; now apply find_gas_Some|].
    split; [|reflexivity].
    rewrite !orb_true_iff in Hnan. tauto.
  - right; right; right. split; [assumption|].
    split; [exists c; now apply find_gas_Some|].
    rewrite !orb_false_iff in Hnan. destruct Hnan as [[? ?] ?].
    repeat split; try assumption. eexists. reflexivity.
Qed.

(** C7: an invocation that ends in an error leaves the previous result in
    place: after a successful calculation (10 litres), clearing the gas
    selection and calculating again gives the MissingField message next to
    the old result.  In general an invocation either clears the error or
    keeps the result it found. *)
Theorem calculateUsage_keeps_stale_result :
  let st1 := calculateUsage (fill "Carbon Monoxide (CO)" "10" "4" "2" initial_state) in
  let st2 := calculateUsage (fill "" "10" "4" "2" st1) in
  (result st1 = Some (lit 10 0) /\ error st1 = js "")
  /\ (error st2 = MissingField /\ result st2 = Some (lit 10 0))
  /\ forall st, error (calculateUsage st) = js ""
                \/ result (calculateUsage st) = result st.
Proof.
  cbv zeta. split; [split; vm_compute; reflexivity|].
  split; [split; vm_compute; reflexivity|].
  intros st.
  destruct (calculateUsage_cases st)
    as [[He ->]|[(Hf & Hn & ->)|[(c & Hf & Hs & Hnan & ->)|(c & Hf & Hs & Hnan & ->)]]];
    [right|right|right|left]; reflexivity.
Qed.


Lemma distinctb_NoDup (l : list jsstring) : distinctb l = true -> NoDup l.
Proof.
  induction l as [|x r IH]; intros H; [constructor|].
  cbn [distinctb] in H. apply andb_true_iff in H. destruct H as [Hx Hr].
  constructor; [|now apply IH].
  intros Hin. apply negb_true_iff in Hx.
  assert (existsb (JSString.eqb x) r = true); [|congruence].
  apply existsb_exists. exists x. split; [assumption|now apply jsstring_eqb_eq].
Qed.

Lemma cylinderData_keys_distinct : NoDup (map gasType cylinderData).
Proof. apply distinctb_NoDup. vm_compute. reflexivity. Qed.

(** C9: the ten keys are pairwise distinct, the three constants of every
    record are strictly positive and no component list is empty. *)
Theorem cylinderData_invariant :
  List.length cylinderData = 10%nat
  /\ NoDup (map gasType cylinderData)
  /\ Forall (fun c => positive_number (bumpTimeMin c)
                      /\ positive_number (calTimeMin c)
                      /\ positive_number (flowRate c)
                      /\ components c <> [])
            cylinderData.
Proof.
  split; [reflexivity|]. split; [exact cylinderData_keys_distinct|].
  repeat constructor; discriminate.
Qed.



(** * Further properties of the label parser *)

Section SplitJoin.

Lemma find_sep_before_clean (sep s b a : jsstring) :
  sep <> [] -> find_sep sep s = Some (b, a) -> includes sep b = false.
Proof.
  intros Hsep F. destruct (includes sep b) eqn:I; [|reflexivity].
  apply includes_iff in I. destruct I as (p & q & ->).
  pose proof (find_sep_Some _ _ _ _ F) as Hs.
  pose proof (find_sep_first _ _ _ _ F p (q ++ sep ++ a)) as Hmin.
  rewrite Hs, <- !app_assoc in Hmin. specialize (Hmin eq_refl).
  rewrite !length_app in Hmin. destruct sep; [congruence|simpl in Hmin; lia].
Qed.

Lemma join_split_upto (sep : jsstring) (Hsep : sep <> []) (n : nat) :
  forall s, (List.length s <= n)%nat ->
    join sep (split sep s) = s
    /\ Forall (fun piece => includes sep piece = false) (split sep s).
Proof.
  induction n as [|n IH]; intros s Hn.
  - destruct s; [|simpl in Hn; lia].
    destruct (find_sep sep []) as [[b a]|] eqn:F.
    + apply find_sep_shorter in F; [simpl in F; lia|assumption].
    + rewrite (split_none _ _ F). split; [reflexivity|].
      constructor; [|constructor]. unfold includes. now rewrite F.
  - destruct (find_sep sep s) as [[b a]|] eqn:F.
    + rewrite (split_cons _ _ _ _ Hsep F).
      pose proof (find_sep_shorter _ _ _ _ Hsep F) as Hlt.
      destruct (IH a ltac:(lia)) as [Hj Hp].
      split.
      * cbn [join]. destruct (split sep a) eqn:S; [now apply split_not_nil in S|].
        rewrite Hj. symmetry. now apply find_sep_Some.
      * constructor; [|assumption]. now apply find_sep_before_clean with s a.
    + rewrite (split_none _ _ F). split; [reflexivity|].
      constructor; [|constructor]. unfold includes. now rewrite F.
Qed.

End SplitJoin.

(** X1: [split] loses nothing and cuts at every separator: joining the
    pieces with the separator gives the string back, and no piece holds the
    separator. *)
Theorem split_join (sep s : jsstring) :
  sep <> [] ->
  join sep (split sep s) = s
  /\ Forall (fun piece => includes sep piece = false) (split sep s).
Proof.
  intros Hsep. now apply join_split_upto with (n := List.length s).
Qed.

Lemma join_split_instance :
  join (js " in 1 ") (split (js " in 1 ") (js "1 in 1 a,b in 1 c,d"))
  = js "1 in 1 a,b in 1 c,d"
  /\ Forall (fun piece => includes (js " in 1 ") piece = false)
            (split (js " in 1 ") (js "1 in 1 a,b in 1 c,d")).
Proof.
  apply (split_join (js " in 1 ") (js "1 in 1 a,b in 1 c,d")). discriminate.
Defined.

(** X2: [trim] leaves exactly the strings with no white space at either end
    unchanged; in particular trimming twice is trimming once. *)
Theorem trim_fixpoint (s : jsstring) :
  (trim s = s <-> trimmed s) /\ trim (trim s) = trim s.
Proof.
  assert (H : forall t, trimmed t -> trim t = t).
  { intros t Ht. rewrite <- (app_nil_r t) at 1.
    apply (trim_unique [] t []); [constructor|constructor|assumption]. }
  split; [split|].
  - intros <-. apply trim_trimmed.
  - apply H.
  - apply H, trim_trimmed.
Qed.

Section Components.

Lemma clean_piece_no_unit (c : code_unit) (piece : jsstring) :
  includes [c] piece = false -> ~ In c piece.
Proof.
  intros I Hin. apply in_split in Hin. destruct Hin as (p & q & ->).
  assert (includes [c] (p ++ c :: q) = true); [|congruence].
  apply includes_iff. now exists p, q.
Qed.

End Components.

(** X3: [formatGasType] returns a value exactly on the labels without
    [" in 1"] and on those with [" in 1 "]; on every other label it throws. *)
Theorem formatGasType_returns_iff (gasType : jsstring) :
  (exists r, formatGasType gasType = Return r)
  <-> (includes (js " in 1") gasType = false
       \/ includes (js " in 1 ") gasType = true).
Proof.
  pose proof (formatGasType_throws_iff gasType) as T.
  destruct (formatGasType gasType) as [r|] eqn:E.
  - split; [intros _|intros _; now exists r].
    destruct (includes (js " in 1") gasType); [|now left].
    destruct (includes (js " in 1 ") gasType); [now right|].
    assert (Return r = ThrowTypeError) by now apply T. discriminate.
  - split; [intros [r Hr]; discriminate|].
    destruct (proj1 T eq_refl) as [H1 H2]. rewrite H1, H2.
    intros [?|?]; discriminate.
Qed.

(** X4: whenever [formatGasType] returns, the component list is not empty. *)
Theorem formatGasType_components_not_empty (gasType : jsstring) (r : GasFormat) :
  formatGasType gasType = Return r -> fmt_components r <> [].
Proof.
  unfold formatGasType.
  destruct (includes (js " in 1") gasType).
  - destruct (split (js " in 1 ") gasType) as [|count [|rest more]]; try discriminate.
    intros [= <-]. cbn [fmt_components].
    destruct (split [comma] (remove_parens rest)) eqn:S;
      [now apply split_not_nil in S|discriminate].
  - destruct (regexp_match gasType) as [[m1 m2]|]; intros [= <-]; discriminate.
Qed.

Lemma components_not_empty_instance :
  fmt_components {| fmt_displayName := js "Argon"; fmt_components := [js "Argon"] |} <> [].
Proof.
  apply (formatGasType_components_not_empty (js "Argon")). reflexivity.
Defined.

(** X5: on the mixture branch no component holds a comma, whatever the
    label. *)
Theorem mixture_components_no_comma (gasType : jsstring) (r : GasFormat) :
  includes (js " in 1") gasType = true ->
  formatGasType gasType = Return r ->
  Forall (fun c => ~ In comma c) (fmt_components r).
Proof.
  intros I. unfold formatGasType. rewrite I.
  destruct (split (js " in 1 ") gasType) as [|count [|rest more]]; try discriminate.
  intros [= <-]. cbn [fmt_components].
  apply Forall_forall. intros c Hc. apply in_map_iff in Hc.
  destruct Hc as (piece & <- & Hp). intros Hin.
  apply trim_incl in Hin.
  destruct (join_split_upto [comma] ltac:(discriminate) _ (remove_parens rest) (le_n _))
    as [_ Hclean].
  rewrite Forall_forall in Hclean.
  now apply (clean_piece_no_unit comma piece (Hclean _ Hp)).
Qed.

Lemma mixture_no_comma_instance :
  Forall (fun c => ~ In comma c)
         (fmt_components {| fmt_displayName := js "3-in-1 Gas Mixture";
                            fmt_components := [js "O2"; js "LEL"; js "CO"] |}).
Proof.
  apply (mixture_components_no_comma (js "3 in 1 (O2,LEL,CO)")); reflexivity.
Defined.

Section RegexpMeaning.

Lemma match_group2_Some (t g : jsstring) :
  match_group2 t = Some g ->
  exists b, t = g ++ rparen :: b
            /\ Forall (fun c => c <> rparen /\ is_line_terminator c = false) g.
Proof.
  revert g; induction t as [|c t IH]; intros g; simpl; [discriminate|].
  destruct (N.eqb_spec c rparen) as [->|Hne].
  - intros [= <-]. exists t. split; [reflexivity|constructor].
  - destruct (is_line_terminator c) eqn:L; [discriminate|].
    destruct (match_group2 t) as [g'|]; [|discriminate].
    intros [= <-]. destruct (IH g' eq_refl) as (b & -> & Hg).
    exists b. split; [reflexivity|]. constructor; [split|]; assumption.
Qed.

Lemma match_group2_complete (g b : jsstring) :
  Forall (fun c => is_line_terminator c = false) g ->
  match_group2 (g ++ rparen :: b) <> None.
Proof.
  induction 1 as [|c g L _ IH]; simpl.
  - discriminate.
  - destruct (N.eqb c rparen); [discriminate|]. rewrite L.
    destruct (match_group2 (g ++ rparen :: b)); [discriminate|congruence].
Qed.

Lemma match_ws_paren_Some (t g2 : jsstring) :
  match_ws_paren t = Some g2 ->
  exists ws t', t = ws ++ lparen :: t' /\ all_white ws /\ match_group2 t' = Some g2.
Proof.
  induction t as [|c t IH]; [discriminate|].
  destruct (is_white_space c) eqn:W.
  - rewrite match_ws_paren_white by assumption. intros H.
    destruct (IH H) as (ws & t' & -> & Hws & Hg).
    exists (c :: ws), t'. split; [reflexivity|]. split; [now constructor|assumption].
  - simpl. rewrite W. destruct (N.eqb_spec c lparen) as [->|]; [|discriminate].
    intros H. exists [], t. split; [reflexivity|]. split; [constructor|assumption].
Qed.

Lemma match_group1_Some (t g1 g2 : jsstring) :
  match_group1 t = Some (g1, g2) ->
  exists ws b,
    t = g1 ++ ws ++ lparen :: g2 ++ rparen :: b
    /\ all_white ws
    /\ Forall (fun c => is_line_terminator c = false) g1
    /\ Forall (fun c => c <> rparen /\ is_line_terminator c = false) g2.
Proof.
  revert g1; induction t as [|c t IH]; intros g1; rewrite match_group1_eq.
  - simpl. discriminate.
  - destruct (match_ws_paren (c :: t)) as [g|] eqn:M.
    + intros [= <- <-]. destruct (match_ws_paren_Some _ _ M) as (ws & t' & -> & Hws & Hg).
      destruct (match_group2_Some _ _ Hg) as (b & -> & Hg2).
      exists ws, b. repeat split; try assumption. constructor.
    + destruct (is_line_terminator c) eqn:L; [discriminate|].
      destruct (match_group1 t) as [[g1' g2']|]; [|discriminate].
      intros [= <- <-]. destruct (IH g1' eq_refl) as (ws & b & -> & Hws & H1 & H2).
      exists ws, b. repeat split; try assumption. now constructor.
Qed.

Lemma regexp_match_Some (s g1 g2 : jsstring) :
  regexp_match s = Some (g1, g2) ->
  exists pre ws post,
    s = pre ++ g1 ++ ws ++ lparen :: g2 ++ rparen :: post
    /\ all_white ws
    /\ Forall (fun c => is_line_terminator c = false) g1
    /\ Forall (fun c => c <> rparen /\ is_line_terminator c = false) g2.
Proof.
  induction s as [|c s IH].
  - cbn [regexp_match]. destruct (match_group1 []) eqn:M; [|discriminate].
    simpl in M. discriminate.
  - cbn [regexp_match]. destruct (match_group1 (c :: s)) as [r|] eqn:M.
    + intros [= ->]. destruct (match_group1_Some _ _ _ M) as (ws & b & E & H).
      exists [], ws, b. split; [exact E|exact H].
    + intros H. destruct (IH H) as (pre & ws & post & -> & H').
      exists (c :: pre), ws, post. split; [reflexivity|exact H'].
Qed.

Lemma match_group1_at_paren (g b : jsstring) :
  Forall (fun c => is_line_terminator c = false) g ->
  match_group1 (lparen :: g ++ rparen :: b) <> None.
Proof.
  intros Hg. rewrite match_group1_eq.
  replace (match_ws_paren (lparen :: g ++ rparen :: b))
    with (match_group2 (g ++ rparen :: b)) by reflexivity.
  pose proof (match_group2_complete g b Hg).
  destruct (match_group2 (g ++ rparen :: b)); [discriminate|congruence].
Qed.

Lemma regexp_match_complete (s : jsstring) :
  has_group s -> regexp_match s <> None.
Proof.
  intros (a & g & b & -> & Hg). induction a as [|c a IH].
  - simpl app. cbn [regexp_match].
    pose proof (match_group1_at_paren g b Hg).
    destruct (match_group1 (lparen :: g ++ rparen :: b)); [discriminate|congruence].
  - simpl app. cbn [regexp_match].
    destruct (match_group1 (c :: a ++ lparen :: g ++ rparen :: b)); [discriminate|exact IH].
Qed.

Lemma regexp_match_has_group (s : jsstring) (r : jsstring * jsstring) :
  regexp_match s = Some r -> has_group s.
Proof.
  destruct r as [g1 g2]. intros H.
  destruct (regexp_match_Some _ _ _ H) as (pre & ws & post & -> & _ & _ & H2).
  exists (pre ++ g1 ++ ws), g2, post. split.
  - now rewrite <- !app_assoc.
  - eapply Forall_impl; [|exact H2]. now intros ? [].
Qed.

Lemma trim_length (s : jsstring) : (List.length (trim s) <= List.length s)%nat.
Proof.
  destruct (trim_decomp s) as (a & b & Hs & _).
  rewrite Hs at 2. rewrite !length_app. lia.
Qed.

End RegexpMeaning.

(** X6: without [" in 1"], the label is returned as its own display name
    and only component exactly when it holds no parenthesised group on one
    line (an opening parenthesis followed, before any line terminator, by a
    closing one). *)
Theorem formatGasType_fallback_iff (gasType : jsstring) :
  includes (js " in 1") gasType = false ->
  (formatGasType gasType
   = Return {| fmt_displayName := gasType; fmt_components := [gasType] |}
   <-> ~ has_group gasType).
Proof.
  intros I. unfold formatGasType. rewrite I.
  destruct (regexp_match gasType) as [[m1 m2]|] eqn:M.
  - split.
    + intros [= H1 H2] _.
      destruct (regexp_match_Some _ _ _ M) as (pre & ws & post & E & _).
      pose proof (trim_length m2) as Hl. rewrite H2 in Hl.
      rewrite E in Hl at 1. rewrite !length_app in Hl. simpl in Hl.
      rewrite !length_app in Hl. simpl in Hl. lia.
    + intros Hn. exfalso. apply Hn. now apply regexp_match_has_group with (m1, m2).
  - split; [|reflexivity].
    intros _ Hg. now apply regexp_match_complete in Hg.
Qed.

Lemma fallback_instance :
  formatGasType (js "Argon (Ar")
  = Return {| fmt_displayName := js "Argon (Ar"; fmt_components := [js "Argon (Ar"] |}
  <-> ~ has_group (js "Argon (Ar").
Proof.
  apply (formatGasType_fallback_iff (js "Argon (Ar")). reflexivity.
Defined.

(** X7: without [" in 1"], a label with a parenthesised group on one line is
    cut around a group: the display name is the trimmed text [g1] in front,
    which holds no line terminator and may be followed by white space, and
    the only component is the trimmed text [g2] between the parentheses,
    which holds no closing parenthesis and no line terminator. *)
Theorem formatGasType_group (gasType : jsstring) :
  includes (js " in 1") gasType = false ->
  has_group gasType ->
  exists pre g1 ws g2 post,
    gasType = pre ++ g1 ++ ws ++ lparen :: g2 ++ rparen :: post
    /\ all_white ws
    /\ Forall (fun c => is_line_terminator c = false) g1
    /\ Forall (fun c => c <> rparen /\ is_line_terminator c = false) g2
    /\ formatGasType gasType
       = Return {| fmt_displayName := trim g1; fmt_components := [trim g2] |}.
Proof.
  intros I Hg. unfold formatGasType. rewrite I.
  destruct (regexp_match gasType) as [[m1 m2]|] eqn:M.
  - destruct (regexp_match_Some _ _ _ M) as (pre & ws & post & E & Hws & H1 & H2).
    exists pre, m1, ws, m2, post. repeat split; assumption.
  - now apply regexp_match_complete in Hg.
Qed.

Lemma group_instance :
  exists pre g1 ws g2 post,
    js "Chlorine (Cl2)" = pre ++ g1 ++ ws ++ lparen :: g2 ++ rparen :: post
    /\ all_white ws
    /\ Forall (fun c => is_line_terminator c = false) g1
    /\ Forall (fun c => c <> rparen /\ is_line_terminator c = false) g2
    /\ formatGasType (js "Chlorine (Cl2)")
       = Return {| fmt_displayName := trim g1; fmt_components := [trim g2] |}.
Proof.
  apply (formatGasType_group (js "Chlorine (Cl2)")).
  - reflexivity.
  - exists (js "Chlorine "), (js "Cl2"), []. split; [reflexivity|].
    repeat constructor.
Defined.

(** * Further properties of the Number built-ins *)

Section RoundingSigns.

Lemma shr_1_nonneg (mrs : shr_record) :
  (0 <= shr_m mrs)%Z -> (0 <= shr_m (shr_1 mrs))%Z.
Proof.
  destruct mrs as [m r s]. simpl.
  destruct m as [|[p|p|]|[p|p|]]; simpl; lia.
Qed.

Lemma iter_pos_shr_1_nonneg (p : positive) :
  forall mrs, (0 <= shr_m mrs)%Z -> (0 <= shr_m (iter_pos shr_1 p mrs))%Z.
Proof.
  induction p as [p IH|p IH|]; intros mrs H; simpl.
  - apply IH, IH, shr_1_nonneg, H.
  - apply IH, IH, H.
  - apply shr_1_nonneg, H.
Qed.

Lemma shr_fexp_nonneg (m e : Z) (l : location) :
  (0 <= m)%Z -> (0 <= shr_m (fst (shr_fexp prec emax m e l)))%Z.
Proof.
  intros H. unfold shr_fexp, shr.
  assert (H0 : (0 <= shr_m (shr_record_of_loc m l))%Z).
  { destruct l as [|[| |]]; exact H. }
  destruct (fexp prec emax (Zdigits2 m + e) - e)%Z; simpl; try exact H0.
  now apply iter_pos_shr_1_nonneg.
Qed.

Lemma round_nearest_even_nonneg (m : Z) (l : location) :
  (0 <= m)%Z -> (0 <= round_nearest_even m l)%Z.
Proof.
  intros H. destruct l as [|[| |]]; simpl; try lia.
  destruct (Z.even m); lia.
Qed.

(** Rounding a non-negative mantissa gives a Number with the sign asked
    for, never [NaN]. *)
Lemma binary_round_aux_sign (s : bool) (m e : Z) (l : location) :
  (0 <= m)%Z -> has_sign s (binary_round_aux prec emax s m e l).
Proof.
  intros H. unfold binary_round_aux.
  pose proof (shr_fexp_nonneg m e l H) as H1.
  destruct (shr_fexp prec emax m e l) as [mrs' e'] eqn:E1. simpl in H1.
  pose proof (shr_fexp_nonneg _ e' loc_Exact
                (round_nearest_even_nonneg _ (loc_of_shr_record mrs') H1)) as H2.
  destruct (shr_fexp prec emax (round_nearest_even (shr_m mrs') (loc_of_shr_record mrs')) e' loc_Exact)
    as [mrs'' e''] eqn:E2. simpl in H2.
  destruct (shr_m mrs'') as [|p|p]; [reflexivity| |lia].
  destruct (e'' <=? emax - prec)%Z; reflexivity.
Qed.

(** Rounding commutes with a change of sign. *)
Lemma binary_round_aux_opp (s : bool) (m e : Z) (l : location) :
  binary_round_aux prec emax (negb s) m e l
  = SFopp (binary_round_aux prec emax s m e l).
Proof.
  unfold binary_round_aux.
  destruct (shr_fexp prec emax m e l) as [mrs' e'].
  destruct (shr_fexp prec emax _ e' loc_Exact) as [mrs'' e''].
  destruct (shr_m mrs'') as [|p|p]; try reflexivity.
  destruct (e'' <=? emax - prec)%Z; reflexivity.
Qed.

Lemma binary_round_sign (s : bool) (m : positive) (e : Z) :
  has_sign s (binary_round prec emax s m e).
Proof.
  unfold binary_round. destruct (shl_align m e _) as [mz ez].
  apply binary_round_aux_sign. lia.
Qed.

Lemma binary_round_opp (s : bool) (m : positive) (e : Z) :
  binary_round prec emax (negb s) m e = SFopp (binary_round prec emax s m e).
Proof.
  unfold binary_round. destruct (shl_align m e _) as [mz ez].
  apply binary_round_aux_opp.
Qed.

Lemma has_sign_not_NaN (s : bool) (x : number) : has_sign s x -> isNaN x = false.
Proof. destruct x; simpl; [reflexivity|reflexivity|intros []|reflexivity]. Qed.

Lemma has_sign_not_negative (x : number) : has_sign false x -> not_negative x.
Proof. destruct x; simpl; auto. Qed.

End RoundingSigns.

Section ParseIntFacts.

Lemma parseInt_unfold (s : jsstring) :
  parseInt s =
  match trimStart s with
  | c :: r =>
      if (c =? 45)%N then parseInt_unsigned true r
      else if (c =? 43)%N then parseInt_unsigned false r
      else parseInt_unsigned false (c :: r)
  | [] => parseInt_unsigned false []
  end.
Proof.
  unfold parseInt, parseInt_unsigned.
  destruct (trimStart s) as [|c r]; [reflexivity|].
  destruct (c =? 45)%N; [reflexivity|]. destruct (c =? 43)%N; reflexivity.
Qed.

Lemma trimStart_white_prefix (w s : jsstring) :
  all_white w -> trimStart (w ++ s) = trimStart s.
Proof.
  induction 1 as [|c w W _ IH]; [reflexivity|]. simpl. now rewrite W.
Qed.

Lemma trimStart_clean (s : jsstring) : starts_clean s -> trimStart s = s.
Proof. destruct s as [|c s]; [reflexivity|]. simpl. now intros ->. Qed.

Lemma digit_value_10 (c : code_unit) :
  digit_value 10 c = if is_decimal_digit c then Some (c - 48)%N else None.
Proof.
  unfold digit_value, is_decimal_digit.
  destruct ((48 <=? c) && (c <=? 57))%N eqn:D.
  - apply andb_true_iff in D. destruct D as [D1 D2].
    apply N.leb_le in D1, D2.
    destruct (N.ltb_spec (c - 48) 10); [reflexivity|lia].
  - destruct ((97 <=? c) && (c <=? 122))%N eqn:L.
    + apply andb_true_iff in L. destruct L as [L1 L2]. apply N.leb_le in L1, L2.
      destruct (N.ltb_spec (c - 87) 10); [lia|reflexivity].
    + destruct ((65 <=? c) && (c <=? 90))%N eqn:U; [|reflexivity].
      apply andb_true_iff in U. destruct U as [U1 U2]. apply N.leb_le in U1, U2.
      destruct (N.ltb_spec (c - 55) 10); [lia|reflexivity].
Qed.

Lemma digit_not_white (c : code_unit) :
  is_decimal_digit c = true -> is_white_space c = false.
Proof.
  unfold is_decimal_digit, is_white_space. intros D.
  apply andb_true_iff in D. destruct D as [D1 D2]. apply N.leb_le in D1, D2.
  repeat match goal with
         | |- context [(?a <=? ?b)%N] => destruct (N.leb_spec a b); try lia
         | |- context [(?a =? ?b)%N] => destruct (N.eqb_spec a b); try lia
         end; reflexivity.
Qed.

Lemma digit_not_sign (c : code_unit) :
  is_decimal_digit c = true -> (c =? 45)%N = false /\ (c =? 43)%N = false.
Proof.
  unfold is_decimal_digit. intros D.
  apply andb_true_iff in D. destruct D as [D1 D2]. apply N.leb_le in D1, D2.
  split; apply N.eqb_neq; lia.
Qed.

Lemma digit_not_x (c : code_unit) :
  is_decimal_digit c = true -> is_x c = false.
Proof.
  unfold is_decimal_digit, is_x. intros D.
  apply andb_true_iff in D. destruct D as [D1 D2]. apply N.leb_le in D1, D2.
  apply orb_false_iff; split; apply N.eqb_neq; lia.
Qed.

(** A decimal digit that does not open a [0x] prefix starts a radix-10
    numeral. *)
Lemma parseInt_unsigned_decimal (neg : bool) (d : code_unit) (rest : jsstring) :
  is_decimal_digit d = true -> (d = 48%N -> no_x_next rest) ->
  parseInt_unsigned neg (d :: rest) =
  match mathInt 10 (digits_prefix 10 (d :: rest)) with
  | N0 => S754_zero neg
  | Npos p => of_Z (if neg then Zneg p else Zpos p)
  end.
Proof.
  intros D Hx. unfold parseInt_unsigned.
  assert (V : digit_value 10 d = Some (d - 48)%N) by now rewrite digit_value_10, D.
  destruct rest as [|c1 r].
  - cbn [digits_prefix]. now rewrite V.
  - destruct (N.eqb_spec d 48) as [->|Hne].
    + specialize (Hx eq_refl). simpl in Hx. unfold is_x in Hx.
      cbn [andb]. rewrite Hx. cbn [digits_prefix]. now rewrite V.
    + cbn [andb]. cbn [digits_prefix]. now rewrite V.
Qed.

Lemma parseInt_unsigned_has_sign (neg : bool) (d : code_unit) (rest : jsstring) :
  is_decimal_digit d = true -> (d = 48%N -> no_x_next rest) ->
  has_sign neg (parseInt_unsigned neg (d :: rest)).
Proof.
  intros D Hx. rewrite parseInt_unsigned_decimal by assumption.
  destruct (mathInt 10 _) as [|p]; [reflexivity|].
  unfold of_Z, binary_normalize. destruct neg; apply binary_round_sign.
Qed.

Lemma parseInt_unsigned_opp (s1 : jsstring) :
  parseInt_unsigned true s1 = SFopp (parseInt_unsigned false s1).
Proof.
  unfold parseInt_unsigned.
  destruct (match s1 with
            | c0 :: c1 :: r =>
                if ((c0 =? 48) && ((c1 =? 120) || (c1 =? 88)))%N then (16%N, r)
                else (10%N, s1)
            | _ => (10%N, s1)
            end) as [radix s2].
  destruct (digits_prefix radix s2) as [|x ds]; [reflexivity|].
  destruct (mathInt radix (x :: ds)) as [|p]; [reflexivity|].
  unfold of_Z, binary_normalize. apply (binary_round_opp false).
Qed.

Lemma digits_prefix_stop (ds rest : jsstring) :
  Forall (fun c => is_decimal_digit c = true) ds -> no_digit_next rest ->
  digits_prefix 10 (ds ++ rest) = digits_prefix 10 ds.
Proof.
  intros Hds Hr. induction Hds as [|d ds D _ IH].
  - destruct rest as [|c r]; [reflexivity|]. simpl in Hr |- *.
    now rewrite digit_value_10, Hr.
  - simpl. rewrite digit_value_10, D. now rewrite IH.
Qed.

Lemma parseInt_skip_white (w s : jsstring) :
  all_white w -> parseInt (w ++ s) = parseInt s.
Proof.
  intros Hw. rewrite !parseInt_unfold. now rewrite trimStart_white_prefix.
Qed.

Lemma parseInt_minus (s : jsstring) :
  starts_clean s ->
  match s with
  | c :: _ => c <> 45%N /\ c <> 43%N
  | [] => True
  end ->
  parseInt (45%N :: s) = SFopp (parseInt s)
  /\ parseInt (43%N :: s) = parseInt s.
Proof.
  intros Hc Hs.
  assert (E : parseInt s = parseInt_unsigned false s).
  { rewrite parseInt_unfold, trimStart_clean by assumption.
    destruct s as [|c r]; [reflexivity|]. destruct Hs as [H1 H2].
    apply N.eqb_neq in H1, H2. now rewrite H1, H2. }
  rewrite E. split.
  - rewrite parseInt_unfold. cbn. apply parseInt_unsigned_opp.
  - rewrite parseInt_unfold. reflexivity.
Qed.

Lemma parseInt_all_white (s : jsstring) :
  all_white s -> isNaN (parseInt s) = true.
Proof.
  intros Hw. rewrite parseInt_unfold.
  rewrite <- (app_nil_r s), trimStart_app; [reflexivity|assumption|exact I].
Qed.

Lemma parseInt_digit_first (d : code_unit) (t : jsstring) :
  is_decimal_digit d = true -> parseInt (d :: t) = parseInt_unsigned false (d :: t).
Proof.
  intros D. destruct (digit_not_sign d D) as [S1 S2].
  rewrite parseInt_unfold, trimStart_clean by (simpl; now apply digit_not_white).
  now rewrite S1, S2.
Qed.

End ParseIntFacts.

(** X8: [parseInt] skips leading white space of any kind. *)
Theorem parseInt_leading_white_space (w s : jsstring) :
  all_white w -> parseInt (w ++ s) = parseInt s.
Proof. apply parseInt_skip_white. Qed.

Lemma leading_white_space_instance :
  parseInt (js "  " ++ js "42") = parseInt (js "42").
Proof.
  apply (parseInt_leading_white_space (js "  ") (js "42")). repeat constructor.
Defined.

(** X9: [parseInt] reads the leading decimal digits and ignores what
    follows them: when [ds] is a non-empty run of decimal digits, [rest]
    does not go on with a digit, and [ds ++ rest] does not open with [0x] or
    [0X], the value is that of [ds] alone. *)
Theorem parseInt_truncates (ds rest : jsstring) :
  ds <> [] ->
  Forall (fun c => is_decimal_digit c = true) ds ->
  no_digit_next rest ->
  (ds = [48%N] -> no_x_next rest) ->
  parseInt (ds ++ rest) = parseInt ds.
Proof.
  intros Hne Hds Hr Hx. destruct ds as [|d ds]; [congruence|].
  inversion Hds as [|? ? D Hds']; subst.
  simpl app. rewrite !parseInt_digit_first by assumption.
  rewrite !parseInt_unsigned_decimal; try assumption.
  - change (d :: ds ++ rest) with ((d :: ds) ++ rest).
    rewrite digits_prefix_stop by assumption. reflexivity.
  - intros ->. destruct ds as [|d2 ds]; [exact I|].
    inversion Hds'; subst. simpl. now apply digit_not_x.
  - intros ->. destruct ds as [|d2 ds]; [simpl; now apply Hx|].
    inversion Hds'; subst. simpl. now apply digit_not_x.
Qed.

Lemma truncates_instance :
  parseInt (js "12" ++ js "abc") = parseInt (js "12").
Proof.
  apply (parseInt_truncates (js "12") (js "abc")).
  - discriminate.
  - repeat constructor.
  - reflexivity.
  - discriminate.
Defined.

(** X10: a leading minus sign changes the sign of the value and nothing else
    (a [NaN] stays a [NaN], zero becomes [-0]); a leading plus sign changes
    nothing.  The sign must come right before the numeral: [s] starts with
    neither white space nor a sign. *)
Theorem parseInt_sign (s : jsstring) :
  starts_clean s ->
  match s with
  | c :: _ => c <> 45%N /\ c <> 43%N
  | [] => True
  end ->
  parseInt (45%N :: s) = SFopp (parseInt s)
  /\ parseInt (43%N :: s) = parseInt s.
Proof. apply parseInt_minus. Qed.

Lemma sign_instance :
  parseInt (45%N :: js "7") = SFopp (parseInt (js "7"))
  /\ parseInt (43%N :: js "7") = parseInt (js "7").
Proof.
  apply (parseInt_sign (js "7")).
  - reflexivity.
  - split; discriminate.
Defined.

Lemma parseInt_numeral_like (s : jsstring) :
  numeral_like s -> isNaN (parseInt s) = false.
Proof.
  intros (w & sign & d & rest & -> & Hw & Hsign & D & Hx).
  rewrite parseInt_skip_white by assumption.
  destruct (digit_not_sign d D) as [S1 S2].
  pose proof (digit_not_white d D) as W.
  destruct Hsign as [-> | [-> | ->]]; rewrite parseInt_unfold; simpl; rewrite ?W, ?S1, ?S2;
    eapply has_sign_not_NaN; apply parseInt_unsigned_has_sign; assumption.
Qed.

(** X11: [parseInt] accepts every string made of optional white space, an
    optional sign and a decimal digit that does not open a [0x] prefix,
    whatever follows: the value is not [NaN].  A string of white space only,
    the empty string included, gives [NaN]. *)
Theorem parseInt_accepts (s : jsstring) :
  (numeral_like s -> isNaN (parseInt s) = false)
  /\ (all_white s -> isNaN (parseInt s) = true).
Proof.
  split; [apply parseInt_numeral_like|apply parseInt_all_white].
Qed.

Lemma accepts_instance :
  isNaN (parseInt (js " -5 units")) = false /\ isNaN (parseInt (js "   ")) = true.
Proof.
  split.
  - apply (proj1 (parseInt_accepts (js " -5 units"))).
    exists (js " "), [45%N], 53%N, (js " units").
    split; [reflexivity|]. split; [repeat constructor|].
    split; [right; right; reflexivity|]. split; [reflexivity|discriminate].
  - apply (proj2 (parseInt_accepts (js "   "))). repeat constructor.
Defined.

(** * Further properties of the calculator and of what is rendered *)

Section CalculatorFacts.

Lemma calculateUsage_fields (st : AppState) :
  selectedGas (calculateUsage st) = selectedGas st
  /\ testsPerMonth (calculateUsage st) = testsPerMonth st
  /\ calibrationsPerMonth (calculateUsage st) = calibrationsPerMonth st
  /\ instruments (calculateUsage st) = instruments st.
Proof.
  destruct (calculateUsage_cases st)
    as [[_ ->]|[(_ & _ & ->)|[(c & _ & _ & _ & ->)|(c & _ & _ & _ & ->)]]];
    repeat split.
Qed.

(** [find] on a list with distinct keys gives back the element asked for. *)
Lemma find_by_key (l : list CylinderData) (c : CylinderData) :
  NoDup (map gasType l) -> In c l ->
  find (fun x => JSString.eqb (gasType x) (gasType c)) l = Some c.
Proof.
  induction l as [|x l IH]; intros Hnd Hin; [destruct Hin|].
  inversion Hnd as [|? ? Hx Hnd']; subst. cbn [find].
  destruct Hin as [->|Hin].
  - replace (JSString.eqb (gasType c) (gasType c)) with true; [reflexivity|].
    symmetry. now apply jsstring_eqb_eq.
  - destruct (JSString.eqb (gasType x) (gasType c)) eqn:E; [|now apply IH].
    apply jsstring_eqb_eq in E. exfalso. apply Hx. rewrite E.
    now apply in_map.
Qed.

Lemma messages_not_empty :
  falsy MissingField = false /\ falsy UnknownGasType = false
  /\ falsy InvalidNumber = false.
Proof. repeat split. Qed.

End CalculatorFacts.

(** X12: pressing Calculate twice is pressing it once. *)
Theorem calculateUsage_idempotent (st : AppState) :
  calculateUsage (calculateUsage st) = calculateUsage st.
Proof.
  destruct st as [g t c i r e].
  unfold calculateUsage.
  cbn [setError setResult selectedGas testsPerMonth calibrationsPerMonth instruments result error].
  destruct (falsy g || falsy t || falsy c || falsy i) eqn:E1.
  - cbn [setError setResult selectedGas testsPerMonth calibrationsPerMonth instruments result error].
    now rewrite E1.
  - destruct (find (fun x => JSString.eqb (gasType x) g) cylinderData) as [cyl|] eqn:F.
    + destruct (isNaN (parseInt t) || isNaN (parseInt c) || isNaN (parseInt i)) eqn:N;
        cbn [setError setResult selectedGas testsPerMonth calibrationsPerMonth instruments result error];
        now rewrite E1, F, N.
    + cbn [setError setResult selectedGas testsPerMonth calibrationsPerMonth instruments result error].
      now rewrite E1, F.
Qed.

(** X13: the handler leaves the four inputs as they are, and what it reports
    depends on them alone: two states with the same inputs get the same
    error, and the same result whenever the error is cleared. *)
Theorem calculateUsage_depends_on_inputs (st1 st2 : AppState) :
  selectedGas st1 = selectedGas st2 ->
  testsPerMonth st1 = testsPerMonth st2 ->
  calibrationsPerMonth st1 = calibrationsPerMonth st2 ->
  instruments st1 = instruments st2 ->
  error (calculateUsage st1) = error (calculateUsage st2)
  /\ (error (calculateUsage st1) = js "" ->
      result (calculateUsage st1) = result (calculateUsage st2))
  /\ selectedGas (calculateUsage st1) = selectedGas st1
  /\ testsPerMonth (calculateUsage st1) = testsPerMonth st1
  /\ calibrationsPerMonth (calculateUsage st1) = calibrationsPerMonth st1
  /\ instruments (calculateUsage st1) = instruments st1.
Proof.
  intros Hg Ht Hc Hi.
  split; [|split; [|apply calculateUsage_fields]].
  - unfold calculateUsage.
    cbn [setError setResult selectedGas testsPerMonth calibrationsPerMonth instruments result error].
    rewrite Hg, Ht, Hc, Hi.
    destruct (falsy (selectedGas st2) || falsy (testsPerMonth st2)
              || falsy (calibrationsPerMonth st2) || falsy (instruments st2));
      [reflexivity|].
    destruct (find _ cylinderData); [|reflexivity].
    destruct (isNaN (parseInt (testsPerMonth st2))
              || isNaN (parseInt (calibrationsPerMonth st2))
              || isNaN (parseInt (instruments st2))); reflexivity.
  - unfold calculateUsage.
    cbn [setError setResult selectedGas testsPerMonth calibrationsPerMonth instruments result error].
    rewrite Hg, Ht, Hc, Hi.
    destruct (falsy (selectedGas st2) || falsy (testsPerMonth st2)
              || falsy (calibrationsPerMonth st2) || falsy (instruments st2));
      [discriminate|].
    destruct (find _ cylinderData); [|discriminate].
    destruct (isNaN (parseInt (testsPerMonth st2))
              || isNaN (parseInt (calibrationsPerMonth st2))
              || isNaN (parseInt (instruments st2))); [discriminate|reflexivity].
Qed.

Lemma depends_on_inputs_instance :
  let st1 := fill "Chlorine (Cl2)" "0" "1" "1" initial_state in
  let st2 := setError (js "old message") (setResult (lit 5 0) st1) in
  error (calculateUsage st1) = error (calculateUsage st2)
  /\ (error (calculateUsage st1) = js "" ->
      result (calculateUsage st1) = result (calculateUsage st2))
  /\ selectedGas (calculateUsage st1) = selectedGas st1
  /\ testsPerMonth (calculateUsage st1) = testsPerMonth st1
  /\ calibrationsPerMonth (calculateUsage st1) = calibrationsPerMonth st1
  /\ instruments (calculateUsage st1) = instruments st1.
Proof.
  apply (calculateUsage_depends_on_inputs
           (fill "Chlorine (Cl2)" "0" "1" "1" initial_state)
           (setError (js "old message")
                     (setResult (lit 5 0) (fill "Chlorine (Cl2)" "0" "1" "1" initial_state))));
    reflexivity.
Defined.

(** X14: choosing an entry of the menu selects that very record: the value of
    a menu item is the [gasType] of its record, the keys are distinct, so
    the lookup made at the next render finds the record itself. *)
Theorem selectedCylinder_of_menu_choice (c : CylinderData) (st : AppState) :
  In c cylinderData ->
  selectedCylinder (setSelectedGas (gasType c) st) = Some c.
Proof.
  intros Hin. unfold selectedCylinder. cbn [setSelectedGas selectedGas].
  apply find_by_key; [exact cylinderData_keys_distinct|exact Hin].
Qed.

Lemma menu_choice_instance :
  let c := {| gasType := js "Chlorine (Cl2)";
              displayName := js "Chlorine";
              components := [js "Cl2"];
              bumpTimeMin := lit 3 0; calTimeMin := lit 6 0; flowRate := lit 5 1 |} in
  selectedCylinder (setSelectedGas (gasType c) initial_state) = Some c.
Proof.
  cbv zeta.
  apply (selectedCylinder_of_menu_choice
           {| gasType := js "Chlorine (Cl2)";
              displayName := js "Chlorine";
              components := [js "Cl2"];
              bumpTimeMin := lit 3 0; calTimeMin := lit 6 0; flowRate := lit 5 1 |}
           initial_state).
  vm_compute. tauto.
Defined.

(** X15: once the four inputs are filled, the properties panel is missing
    exactly when Calculate answers that the gas type is invalid: the render
    and the handler make the same lookup. *)
Theorem propertiesPanel_iff_known_gas (st : AppState) :
  every_field_filled st ->
  (propertiesPanel (render st) = None
   <-> error (calculateUsage st) = UnknownGasType).
Proof.
  intros Hf. unfold render, selectedCylinder. cbn [propertiesPanel].
  destruct (calculateUsage_cases st)
    as [[He _]|[(_ & Hn & ->)|[(c & _ & Hs & _ & ->)|(c & _ & Hs & _ & ->)]]].
  - exfalso. unfold some_field_empty, every_field_filled in *. tauto.
  - cbv zeta in Hn. rewrite Hn. split; reflexivity.
  - cbv zeta in Hs. rewrite Hs. split; discriminate.
  - cbv zeta in Hs. rewrite Hs. split; discriminate.
Qed.

Lemma propertiesPanel_instance :
  let st := fill "Unknown Gas (XX)" "1" "1" "1" initial_state in
  propertiesPanel (render st) = None
  <-> error (calculateUsage st) = UnknownGasType.
Proof.
  apply (propertiesPanel_iff_known_gas (fill "Unknown Gas (XX)" "1" "1" "1" initial_state)).
  repeat split; discriminate.
Defined.

(** X16: after Calculate the screen shows one of the three messages, or no
    message and a result; it never shows neither. *)
Theorem render_after_calculateUsage (st : AppState) :
  let v := render (calculateUsage st) in
  errorBlock v = Some MissingField
  \/ errorBlock v = Some UnknownGasType
  \/ errorBlock v = Some InvalidNumber
  \/ (errorBlock v = None /\ exists x, resultBlock v = Some x).
Proof.
  cbv zeta. unfold render. cbn [errorBlock resultBlock].
  destruct (calculateUsage_cases st)
    as [[_ ->]|[(_ & _ & ->)|[(c & _ & _ & _ & ->)|(c & _ & _ & _ & ->)]]].
  - left. reflexivity.
  - right; left. reflexivity.
  - right; right; left. reflexivity.
  - right; right; right. split; [reflexivity|]. eexists. reflexivity.
Qed.

(** X17: an input made of white space only is not an empty field: with the
    four inputs filled and a gas of the catalog selected, it is reported as
    an invalid number, not as a missing field. *)
Theorem white_space_field_is_invalid_number (st : AppState) :
  every_field_filled st ->
  selectedCylinder st <> None ->
  all_white (testsPerMonth st) \/ all_white (calibrationsPerMonth st)
  \/ all_white (instruments st) ->
  error (calculateUsage st) = InvalidNumber.
Proof.
  intros Hf Hs Hw. unfold selectedCylinder in Hs.
  assert (Hnan : isNaN (parseInt (testsPerMonth st))
                 || isNaN (parseInt (calibrationsPerMonth st))
                 || isNaN (parseInt (instruments st)) = true).
  { rewrite !orb_true_iff.
    destruct Hw as [H|[H|H]]; apply parseInt_all_white in H; tauto. }
  destruct (calculateUsage_cases st)
    as [[He _]|[(_ & Hn & _)|[(c & _ & _ & _ & ->)|(c & _ & _ & Hok & _)]]].
  - exfalso. unfold some_field_empty, every_field_filled in *. tauto.
  - cbv zeta in Hn. congruence.
  - reflexivity.
  - cbv zeta in Hok. congruence.
Qed.

Lemma white_space_field_instance :
  error (calculateUsage (fill "Ammonia (NH3)" " " "1" "1" initial_state))
  = InvalidNumber.
Proof.
  apply (white_space_field_is_invalid_number
           (fill "Ammonia (NH3)" " " "1" "1" initial_state)).
  - repeat split; discriminate.
  - discriminate.
  - left. repeat constructor.
Defined.

(** X18: the handler checks no range: with a gas of the catalog selected,
    inputs that are an optional sign and a decimal digit, between optional
    white space and any trailing text, pass all three checks, negative
    numbers and zero included. *)
Theorem calculateUsage_checks_no_range (st : AppState) :
  selectedCylinder st <> None ->
  numeral_like (testsPerMonth st) ->
  numeral_like (calibrationsPerMonth st) ->
  numeral_like (instruments st) ->
  error (calculateUsage st) = js "" /\ exists v, result (calculateUsage st) = Some v.
Proof.
  intros Hs Ht Hc Hi. unfold selectedCylinder in Hs.
  assert (Hne : forall s, numeral_like s -> s <> []).
  { intros s (w & sign & d & rest & -> & _) E.
    apply app_eq_nil in E. destruct E as [_ E].
    apply app_eq_nil in E. destruct E as [_ E]. discriminate. }
  pose proof (parseInt_numeral_like _ Ht) as Nt.
  pose proof (parseInt_numeral_like _ Hc) as Nc.
  pose proof (parseInt_numeral_like _ Hi) as Ni.
  destruct (calculateUsage_cases st)
    as [[He _]|[(_ & Hn & _)|[(c & _ & _ & Hnan & _)|(c & _ & _ & _ & ->)]]].
  - exfalso. destruct He as [E|[E|[E|E]]].
    + apply Hs. rewrite E. reflexivity.
    + now apply (Hne _ Ht).
    + now apply (Hne _ Hc).
    + now apply (Hne _ Hi).
  - cbv zeta in Hn. congruence.
  - cbv zeta in Hnan. rewrite Nt, Nc, Ni in Hnan. discriminate.
  - split; [reflexivity|]. eexists. reflexivity.
Qed.

Lemma checks_no_range_instance :
  let st := fill "Ammonia (NH3)" "-3" "0" "-1" initial_state in
  error (calculateUsage st) = js "" /\ exists v, result (calculateUsage st) = Some v.
Proof.
  apply (calculateUsage_checks_no_range (fill "Ammonia (NH3)" "-3" "0" "-1" initial_state)).
  - discriminate.
  - exists [], [45%N], 51%N, [].
    split; [reflexivity|]. split; [constructor|].
    split; [right; right; reflexivity|]. split; [reflexivity|discriminate].
  - exists [], [], 48%N, [].
    split; [reflexivity|]. split; [constructor|].
    split; [left; reflexivity|]. split; [reflexivity|intros _; exact I].
  - exists [], [45%N], 49%N, [].
    split; [reflexivity|]. split; [constructor|].
    split; [right; right; reflexivity|]. split; [reflexivity|discriminate].
Defined.

(** * Signs: what negative inputs do, and when the usage cannot be negative *)

Section SignFacts.

Lemma mul_opp_r (x y : number) : mul x (SFopp y) = SFopp (mul x y).
Proof.
  unfold mul. destruct x as [sx|sx| |sx mx ex], y as [sy|sy| |sy my ey];
    cbn [SFmul SFopp]; try reflexivity;
    try (now destruct sx, sy).
  replace (xorb sx (negb sy)) with (negb (xorb sx sy)) by now destruct sx, sy.
  apply binary_round_aux_opp.
Qed.

Lemma mul_not_negative (x y : number) :
  not_negative x -> not_negative y -> not_negative (mul x y).
Proof.
  unfold mul. destruct x as [sx|sx| |sx mx ex], y as [sy|sy| |sy my ey];
    intros Hx Hy; cbn [not_negative] in Hx, Hy; subst;
    cbn [SFmul not_negative xorb]; try exact I; try reflexivity.
  apply has_sign_not_negative. apply binary_round_aux_sign. lia.
Qed.

Lemma add_not_negative (x y : number) :
  not_negative x -> not_negative y -> not_negative (add x y).
Proof.
  unfold add. destruct x as [sx|sx| |sx mx ex], y as [sy|sy| |sy my ey];
    intros Hx Hy; cbn [not_negative] in Hx, Hy; subst;
    cbn [SFadd not_negative]; try exact I; try reflexivity.
  cbn [cond_Zopp Z.add].
  apply has_sign_not_negative. unfold binary_normalize. apply binary_round_sign.
Qed.

Lemma SFdiv_core_nonneg (a b : positive) (e1 e2 : Z) :
  (0 <= fst (fst (SFdiv_core_binary prec emax (Zpos a) e1 (Zpos b) e2)))%Z.
Proof.
  unfold SFdiv_core_binary.
  set (s := (e1 - e2 - _)%Z).
  set (m' := match s with Zpos _ => Z.shiftl (Zpos a) s | Z0 => Zpos a | Zneg _ => 0%Z end).
  assert (Hm : (0 <= m')%Z).
  { unfold m'. destruct s; [lia| |lia]. apply Z.shiftl_nonneg. lia. }
  pose proof (Z.div_pos m' (Zpos b) Hm ltac:(lia)) as Hq.
  unfold Z.div in Hq. destruct (Z.div_eucl m' (Zpos b)) as [q r]. exact Hq.
Qed.

Lemma of_decimal_sign (s : bool) (n : positive) (k : N) :
  has_sign s (of_decimal s n k).
Proof.
  unfold of_decimal. cbn [SFdiv].
  pose proof (SFdiv_core_nonneg n (Z.to_pos (10 ^ Z.of_N k)) 0 0) as H.
  destruct (SFdiv_core_binary prec emax (Zpos n) 0 (Zpos (Z.to_pos (10 ^ Z.of_N k))) 0)
    as [[mz ez] lz]. simpl in H.
  replace (xorb s false) with s by now destruct s.
  now apply binary_round_aux_sign.
Qed.

Lemma of_decimal_opp (s : bool) (n : positive) (k : N) :
  of_decimal (negb s) n k = SFopp (of_decimal s n k).
Proof.
  unfold of_decimal. cbn [SFdiv].
  destruct (SFdiv_core_binary prec emax (Zpos n) 0 (Zpos (Z.to_pos (10 ^ Z.of_N k))) 0)
    as [[mz ez] lz].
  replace (xorb (negb s) false) with (negb (xorb s false)) by now destruct s.
  apply binary_round_aux_opp.
Qed.

Lemma round2_not_negative (x : number) :
  not_negative x -> not_negative (parseFloat (toFixed2 x)).
Proof.
  destruct x as [s|s| |s m e]; intros H; cbn [not_negative] in H; subst;
    cbn [toFixed2 parseFloat not_negative]; try exact I; try reflexivity.
  destruct (at_least_1e21 m e); cbn [parseFloat]; [reflexivity|].
  destruct (hundredths m e); try reflexivity.
  apply has_sign_not_negative, of_decimal_sign.
Qed.

Lemma parseInt_unsigned_not_negative (s1 : jsstring) :
  not_negative (parseInt_unsigned false s1).
Proof.
  unfold parseInt_unsigned.
  destruct (match s1 with
            | c0 :: c1 :: r =>
                if ((c0 =? 48) && ((c1 =? 120) || (c1 =? 88)))%N then (16%N, r)
                else (10%N, s1)
            | _ => (10%N, s1)
            end) as [radix s2].
  destruct (digits_prefix radix s2) as [|x ds]; [exact I|].
  destruct (mathInt radix (x :: ds)) as [|p]; [reflexivity|].
  apply has_sign_not_negative. unfold of_Z, binary_normalize. apply binary_round_sign.
Qed.

Lemma parseInt_not_negative (s : jsstring) :
  no_minus s -> not_negative (parseInt s).
Proof.
  unfold no_minus. rewrite parseInt_unfold.
  destruct (trimStart s) as [|c r]; [intros _; exact I|].
  intros Hc. apply N.eqb_neq in Hc. rewrite Hc.
  destruct (c =? 43)%N; apply parseInt_unsigned_not_negative.
Qed.

Lemma cylinderData_constants_not_negative (c : CylinderData) :
  In c cylinderData ->
  not_negative (bumpTimeMin c) /\ not_negative (calTimeMin c)
  /\ not_negative (flowRate c).
Proof.
  assert (H : Forall (fun c => not_negative (bumpTimeMin c)
                               /\ not_negative (calTimeMin c)
                               /\ not_negative (flowRate c)) cylinderData)
    by (repeat constructor).
  rewrite Forall_forall in H. apply H.
Qed.

End SignFacts.

Lemma round2_SFopp (x : number) :
  is_zero x = false ->
  parseFloat (toFixed2 (SFopp x)) = SFopp (parseFloat (toFixed2 x)).
Proof.
  destruct x as [s|s| |s m e]; cbn [is_zero SFopp toFixed2 parseFloat];
    try discriminate; try reflexivity.
  intros _. destruct (at_least_1e21 m e); cbn [parseFloat].
  - now destruct s.
  - destruct (hundredths m e); try reflexivity. apply of_decimal_opp.
Qed.

(** X19: [toFixed(2)] followed by [parseFloat] treats the two signs alike:
    rounding the opposite of a Number gives the opposite of its rounding,
    so ties go away from zero on both sides.  Zero is the exception:
    [(-0).toFixed(2)] is ["0.00"]. *)
Theorem round2_opp (x : number) :
  is_zero x = false ->
  parseFloat (toFixed2 (SFopp x)) = SFopp (parseFloat (toFixed2 x)).
Proof. apply round2_SFopp. Qed.

Lemma opp_rounding_instance :
  parseFloat (toFixed2 (SFopp (lit 125 3)))
  = SFopp (parseFloat (toFixed2 (lit 125 3))).
Proof. apply (round2_opp (lit 125 3)). reflexivity. Defined.

(** X20: when no input has a minus sign in front, a calculation that
    succeeds never shows a negative usage (the sign bit of the result is
    clear, or the result is [NaN]). *)
Theorem usage_not_negative (st : AppState) (v : number) :
  no_minus (testsPerMonth st) ->
  no_minus (calibrationsPerMonth st) ->
  no_minus (instruments st) ->
  error (calculateUsage st) = js "" ->
  result (calculateUsage st) = Some v ->
  not_negative v.
Proof.
  intros Ht Hc Hi He Hr.
  destruct (calculateUsage_cases st)
    as [[_ E]|[(_ & _ & E)|[(c & _ & _ & _ & E)|(c & _ & Hs & _ & E)]]];
    rewrite E in He, Hr; try discriminate He.
  cbn [result setResult] in Hr. injection Hr as <-.
  cbv zeta in Hs. apply find_gas_Some in Hs. destruct Hs as [Hin _].
  destruct (cylinderData_constants_not_negative c Hin) as (Hb & Hcal & Hf).
  apply round2_not_negative. unfold totalUsage.
  apply mul_not_negative; [|now apply parseInt_not_negative].
  apply add_not_negative; apply mul_not_negative; try assumption;
    apply mul_not_negative; try assumption; now apply parseInt_not_negative.
Qed.

Lemma not_negative_instance :
  not_negative (lit 3 0).
Proof.
  apply (usage_not_negative (fill "Chlorine (Cl2)" "0" "1" "1" initial_state) (lit 3 0)).
  - discriminate.
  - discriminate.
  - discriminate.
  - reflexivity.
  - vm_compute. reflexivity.
Defined.

(** X21: a minus sign in front of the number of instruments is accepted and
    changes the sign of the total: when a calculation succeeds and the
    instruments input starts with neither white space nor a sign, putting a
    minus sign in front of it makes the handler round the opposite total,
    which, unless the total is zero, is the opposite of the usage shown
    before. *)
Theorem negative_instruments_negate_usage (st : AppState) (cyl : CylinderData) :
  every_field_filled st ->
  selectedCylinder st = Some cyl ->
  isNaN (parseInt (testsPerMonth st)) = false ->
  isNaN (parseInt (calibrationsPerMonth st)) = false ->
  isNaN (parseInt (instruments st)) = false ->
  starts_clean (instruments st) ->
  match instruments st with
  | c :: _ => c <> 45%N /\ c <> 43%N
  | [] => True
  end ->
  let total := totalUsage cyl (parseInt (testsPerMonth st))
                          (parseInt (calibrationsPerMonth st))
                          (parseInt (instruments st)) in
  let st' := calculateUsage (setInstruments (45%N :: instruments st) st) in
  result (calculateUsage st) = Some (parseFloat (toFixed2 total))
  /\ error st' = js ""
  /\ result st' = Some (parseFloat (toFixed2 (SFopp total)))
  /\ (is_zero total = false ->
      result st' = Some (SFopp (parseFloat (toFixed2 total)))).
Proof.
  intros Hf Hs Nt Nc Ni Hclean Hsign. cbv zeta. unfold selectedCylinder in Hs.
  destruct (parseInt_minus (instruments st) Hclean Hsign) as [Hneg _].
  assert (R1 : result (calculateUsage st)
               = Some (parseFloat (toFixed2
                         (totalUsage cyl (parseInt (testsPerMonth st))
                                     (parseInt (calibrationsPerMonth st))
                                     (parseInt (instruments st)))))).
  { destruct (calculateUsage_cases st)
      as [[He _]|[(_ & Hn & _)|[(c & _ & _ & Hnan & _)|(c & _ & Hc & _ & ->)]]].
    - exfalso. unfold some_field_empty, every_field_filled in *. tauto.
    - cbv zeta in Hn. congruence.
    - cbv zeta in Hnan. rewrite Nt, Nc, Ni in Hnan. discriminate.
    - cbv zeta in Hc. assert (c = cyl) by congruence. subst c. reflexivity. }
  set (st1 := setInstruments (45%N :: instruments st) st).
  assert (Ni' : isNaN (parseInt (instruments st1)) = false).
  { unfold st1. cbn [setInstruments instruments]. rewrite Hneg.
    destruct (parseInt (instruments st)); try reflexivity. discriminate Ni. }
  assert (R2 : error (calculateUsage st1) = js ""
               /\ result (calculateUsage st1)
                  = Some (parseFloat (toFixed2
                            (SFopp (totalUsage cyl (parseInt (testsPerMonth st))
                                               (parseInt (calibrationsPerMonth st))
                                               (parseInt (instruments st))))))).
  { destruct (calculateUsage_cases st1)
      as [[He _]|[(_ & Hn & _)|[(c & _ & _ & Hnan & _)|(c & _ & Hc & _ & ->)]]].
    - exfalso. unfold some_field_empty, every_field_filled, st1 in *.
      cbn [setInstruments selectedGas testsPerMonth calibrationsPerMonth instruments] in He.
      destruct He as [E|[E|[E|E]]]; try tauto. discriminate E.
    - cbv zeta in Hn. unfold st1 in Hn. cbn [setInstruments selectedGas] in Hn. congruence.
    - cbv zeta in Hnan. rewrite Ni' in Hnan. unfold st1 in Hnan.
      cbn [setInstruments testsPerMonth calibrationsPerMonth] in Hnan.
      rewrite Nt, Nc in Hnan. discriminate.
    - cbv zeta in Hc. unfold st1 in Hc. cbn [setInstruments selectedGas] in Hc.
      assert (c = cyl) by congruence. subst c.
      split; [reflexivity|]. cbn [result setResult]. unfold st1.
      cbn [setInstruments testsPerMonth calibrationsPerMonth instruments].
      rewrite Hneg. unfold totalUsage. now rewrite mul_opp_r. }
  destruct R2 as [E2 R2].
  split; [exact R1|]. split; [exact E2|]. split; [exact R2|].
  intros Hz. rewrite R2. f_equal. now apply round2_SFopp.
Qed.

Lemma negative_instruments_instance :
  let st := fill "Chlorine (Cl2)" "0" "1" "2" initial_state in
  let cyl := {| gasType := js "Chlorine (Cl2)";
                displayName := js "Chlorine";
                components := [js "Cl2"];
                bumpTimeMin := lit 3 0; calTimeMin := lit 6 0; flowRate := lit 5 1 |} in
  let total := totalUsage cyl (parseInt (testsPerMonth st))
                          (parseInt (calibrationsPerMonth st))
                          (parseInt (instruments st)) in
  let st' := calculateUsage (setInstruments (45%N :: instruments st) st) in
  result (calculateUsage st) = Some (parseFloat (toFixed2 total))
  /\ error st' = js ""
  /\ result st' = Some (parseFloat (toFixed2 (SFopp total)))
  /\ (is_zero total = false ->
      result st' = Some (SFopp (parseFloat (toFixed2 total)))).
Proof.
  cbv zeta.
  apply (negative_instruments_negate_usage
           (fill "Chlorine (Cl2)" "0" "1" "2" initial_state)
           {| gasType := js "Chlorine (Cl2)";
              displayName := js "Chlorine";
              components := [js "Cl2"];
              bumpTimeMin := lit 3 0; calTimeMin := lit 6 0; flowRate := lit 5 1 |}).
  - repeat split; discriminate.
  - reflexivity.
  - reflexivity.
  - reflexivity.
  - reflexivity.
  - reflexivity.
  - split; discriminate.
Defined.
